(** * sfini: activity identity, registration and invocation binding

    A shallow embedding of [sfini/_activity.py]: the classes [Activity],
    [CallableActivity] and [ActivityRegistration].  Python dictionaries that
    are used as maps ([task_input], [kwargs]) are [gmap string value]; the
    ordered mappings ([sig.parameters], [self.activities]) are lists in
    insertion order, because the order of iteration decides which error is
    raised first and in which order remote calls are issued.  Exceptions are
    values of [exn]; effectful methods are functions in the state-and-error
    monad [M]. *)

From Stdlib Require Import ZArith Ascii DecimalString.
From stdpp Require Import base strings gmap list.

Local Open Scope string_scope.
Local Open Scope list_scope.

(** ** Python values, exceptions and results *)

(** Values carried by a task input (decoded JSON) and by parameter
    defaults. *)
#[warnings="-register-all"]
Inductive value : Type :=
  | VNone
  | VBool (b : bool)
  | VInt (n : Z)
  | VStr (s : string)
  | VList (l : list value)
  | VDict (d : list (string * value)).

(** The exceptions the module raises or lets through.  [ClientError] stands
    for whatever the boto3 client raises. *)
Inductive exn : Type :=
  | KeyError (msg : string)
  | ValueError (msg : string)
  | AssertionError
  | ClientError (msg : string).

Inductive result (A : Type) : Type :=
  | Ok (a : A)
  | Raise (e : exn).
Arguments Ok {A} a.
Arguments Raise {A} e.

Definition is_ok {A} (r : result A) : bool :=
  match r with Ok _ => true | Raise _ => false end.

(** ** State-and-error monad

    A computation reads and writes a state of type [S] and either returns or
    raises; the state written before an exception is kept, as in Python. *)
Definition M (S A : Type) : Type := S -> result A * S.

Definition ret {S A} (a : A) : M S A := fun s => (Ok a, s).

Definition raise {S A} (e : exn) : M S A := fun s => (Raise e, s).

Definition bind {S A B} (m : M S A) (k : A -> M S B) : M S B :=
  fun s =>
    match m s with
    | (Ok a, s') => k a s'
    | (Raise e, s') => (Raise e, s')
    end.

Notation "'let*' x ':=' m 'in' k" := (bind m (fun x => k))
  (at level 10, x name, m at level 100, k at level 200).

Definition lift_result {S A} (r : result A) : M S A := fun s => (r, s).

Definition get {S} : M S S := fun s => (Ok s, s).

Definition modify {S} (f : S -> S) : M S unit := fun s => (Ok tt, f s).

(** Run a computation on the first (resp. second) component of a pair. *)
Definition on_fst {S T A} (m : M S A) : M (S * T) A :=
  fun st => let '(r, s') := m st.1 in (r, (s', st.2)).

Definition on_snd {S T A} (m : M T A) : M (S * T) A :=
  fun st => let '(r, t') := m st.2 in (r, (st.1, t')).

(** ** The [str] operations the module uses *)

Module Str.

(** [c in s] for a one-character [c]. *)
Fixpoint contains (c : ascii) (s : string) : bool :=
  match s with
  | EmptyString => false
  | String c' rest => if Ascii.eqb c' c then true else contains c rest
  end.

(** [s.split(sep, maxsplit)] for a one-character separator: at most
    [maxsplit] splits are made, from the left, and the rest of the string
    is the last piece. *)
Fixpoint split (sep : ascii) (maxsplit : nat) (s : string) {struct s}
  : list string :=
  match s with
  | EmptyString => [EmptyString]
  | String c rest =>
      match maxsplit with
      | O => [s]
      | S m =>
          if Ascii.eqb c sep then EmptyString :: split sep m rest
          else match split sep maxsplit rest with
               | [] => [String c EmptyString]
               | piece :: pieces => String c piece :: pieces
               end
      end
  end.

(** [s.count(c)] for a one-character [c]. *)
Fixpoint count (c : ascii) (s : string) : nat :=
  match s with
  | EmptyString => 0
  | String c' rest =>
      if Ascii.eqb c' c then S (count c rest) else count c rest
  end.

(** ["%d" % n] for a length. *)
Definition of_nat (n : nat) : string :=
  NilZero.string_of_uint (Nat.to_uint n).

End Str.

(** ** The session and the remote service

    [_util.AWSSession] is a collaborator: it supplies [region],
    [account_id] and the Step Functions client [sfn].  The service is
    deterministic in the history of the calls made so far, which is what an
    arbitrary stateful service looks like from the client. *)

Inductive call : Type :=
  | create_activity (name : string)
  | list_activities
  | delete_activity (activityArn : string).

(** The response of [create_activity]; [creationDate] is kept as the text
    the log line prints. *)
Record CreateActivityOutput : Type := {
  activityArn : string;
  creationDate : string
}.

(** One element of [resp["activities"]] of [list_activities]. *)
Record ActivityListItem : Type := {
  item_name : string;
  item_arn : string;
  item_creationDate : string
}.

Record SFN : Type := {
  on_create_activity : list call -> string -> result CreateActivityOutput;
  on_list_activities : list call -> result (list ActivityListItem);
  on_delete_activity : list call -> string -> result unit
}.

Record Session : Type := {
  region : string;
  account_id : string;
  sfn : SFN
}.

(** What the process has done to the outside: the remote calls issued, in
    order, and the lines written to the logger. *)
Record world : Type := {
  calls : list call;
  logs : list string
}.

Definition world0 : world := {| calls := []; logs := [] |}.

Definition record_call (c : call) : M world unit :=
  modify (fun w => {| calls := calls w ++ [c]; logs := logs w |}).

Definition _logger_info (msg : string) : M world unit :=
  modify (fun w => {| calls := calls w; logs := logs w ++ [msg] |}).

(** [session.sfn.create_activity(name=name)] *)
Definition sfn_create_activity (s : Session) (name : string)
  : M world CreateActivityOutput :=
  let* w := get in
  let* _ := record_call (create_activity name) in
  lift_result (on_create_activity (sfn s) (calls w) name).

(** [session.sfn.delete_activity(activityArn=arn)] *)
Definition sfn_delete_activity (s : Session) (arn : string) : M world unit :=
  let* w := get in
  let* _ := record_call (delete_activity arn) in
  lift_result (on_delete_activity (sfn s) (calls w) arn).

(** Modelled from the spec: [_util.collect_paginated] is not in the sources;
    it "retrieves the full remote activity list (paginated), transparently
    following continuation tokens until exhausted", so the listing is one
    logical call whose answer is the merged list of all pages. *)
Definition collect_paginated_list_activities (s : Session)
  : M world (list ActivityListItem) :=
  let* w := get in
  let* _ := record_call list_activities in
  lift_result (on_list_activities (sfn s) (calls w)).

(** Modelled from the spec: [_util.cached_property] is not in the sources;
    the identifier "is cached after first computation", so the first access
    computes the value and stores it in the object's slot and every later
    access returns the stored value. *)
Definition cached_property {S A} (slot : S -> option A)
    (store : A -> S -> S) (compute : S -> A) : M S A :=
  fun self =>
    match slot self with
    | Some v => (Ok v, self)
    | None => let v := compute self in (Ok v, store v self)
    end.

(** ** class Activity *)

Module Activity.

(** The attributes set by [__init__], and the slot in which the cached
    property [arn] keeps its value. *)
Record t : Type := {
  name : string;
  heartbeat : Z;
  session : Session;
  arn_slot : option string
}.

(** [__init__(self, name, heartbeat=20, *, session=None)]; the session is
    always supplied here ([_util.AWSSession()] is the collaborator's
    default). *)
Definition __init__ (name : string) (heartbeat : Z) (session : Session) : t :=
  {| name := name; heartbeat := heartbeat; session := session;
     arn_slot := None |}.

Definition store_arn (v : string) (self : t) : t :=
  {| name := name self; heartbeat := heartbeat self;
     session := session self; arn_slot := Some v |}.

(** The body of the property [arn]. *)
Definition generated_arn (self : t) : string :=
  let region := region (session self) in
  let account := account_id (session self) in
  "arn:aws:states:" +:+ region +:+ ":" +:+ account +:+ ":activity:"
    +:+ name self.

(** [@_util.cached_property def arn(self)] *)
Definition arn : M t string :=
  cached_property arn_slot store_arn generated_arn.

(** [__str__]; [cls] is [type(self).__name__]. *)
Definition __str__ (cls : string) (self : t) : string :=
  cls +:+ " '" +:+ name self +:+ "'".

Section Register.
(** [_util.assert_valid_name] is not in the sources: it either returns
    or raises, and touches nothing else. *)
Context (assert_valid_name : string -> result unit).
Context (cls : string).

(** [register(self)] *)
Definition register : M (t * world) unit :=
  let* self := on_fst get in
  let* _ := lift_result (assert_valid_name (name self)) in
  let* resp := on_snd (sfn_create_activity (session self) (name self)) in
  let* self_arn := on_fst arn in
  if String.eqb (activityArn resp) self_arn then
    on_snd (_logger_info ("Activity '" +:+ __str__ cls self
                            +:+ "' registered at " +:+ creationDate resp))
  else raise AssertionError.
End Register.

End Activity.

(** ** class CallableActivity(Activity) *)

(** [inspect.Parameter]: its name, kind and default; [None] is
    [Parameter.empty]. *)
Inductive kind : Type :=
  | POSITIONAL_ONLY
  | POSITIONAL_OR_KEYWORD
  | VAR_POSITIONAL
  | KEYWORD_ONLY
  | VAR_KEYWORD.

Definition kind_is (k1 k2 : kind) : bool :=
  match k1, k2 with
  | POSITIONAL_ONLY, POSITIONAL_ONLY
  | POSITIONAL_OR_KEYWORD, POSITIONAL_OR_KEYWORD
  | VAR_POSITIONAL, VAR_POSITIONAL
  | KEYWORD_ONLY, KEYWORD_ONLY
  | VAR_KEYWORD, VAR_KEYWORD => true
  | _, _ => false
  end.

Record InspectParameter : Type := {
  p_name : string;
  p_kind : kind;
  p_default : option value
}.

(** [sig.parameters]: the parameters in declaration order.  The variadic
    parameters ([*args], [**kwargs]) are entries of it like the others, and
    Python gives them no default. *)
Definition Signature : Type := list InspectParameter.

(** What the attribute dictionary [fn.__dict__] of a callable holds under
    the names of the attributes that [CallableActivity.__init__] sets:
    [name], [heartbeat], [session], [fn] and [sig].  A plain function
    carries none of them; an object that is itself a declared activity
    carries all five. *)
Record Attributes (C : Type) : Type := {
  attr_name : option string;
  attr_heartbeat : option Z;
  attr_session : option Session;
  attr_fn : option C;
  attr_sig : option Signature
}.
Arguments attr_name {C} _.
Arguments attr_heartbeat {C} _.
Arguments attr_session {C} _.
Arguments attr_fn {C} _.
Arguments attr_sig {C} _.

(** A Python callable as the module sees it: [__name__], the signature that
    [inspect.Signature.from_callable] reports, what a call with keyword
    arguments returns or raises, and its attribute dictionary. *)
#[warnings="-register-all"]
Inductive Callable : Type := {
  __name__ : string;
  parameters : Signature;
  __call__ : gmap string value -> result value;
  __dict__ : Attributes Callable
}.

(** The attribute dictionary of a plain function. *)
Definition no_attributes : Attributes Callable :=
  {| attr_name := None; attr_heartbeat := None; attr_session := None;
     attr_fn := None; attr_sig := None |}.

Module CallableActivity.

Record t : Type := {
  base : Activity.t;
  fn : Callable;
  sig : Signature
}.

(** [__init__(self, name, fn, heartbeat=20, *, session=None)] *)
Definition __init__ (name : string) (fn : Callable) (heartbeat : Z)
    (session : Session) : t :=
  {| base := Activity.__init__ name heartbeat session;
     fn := fn;
     sig := parameters fn |}.

(** [ft.update_wrapper(activity, fn)]: it copies [__name__], [__doc__] and
    the like onto the activity, none of which is an attribute modelled
    here, and then runs [activity.__dict__.update(fn.__dict__)], which
    overwrites each attribute of the activity that [fn] carries too.  The
    slot of the cached identifier stays as it is: where a cached value is
    kept is the business of [_util.cached_property], which is not in the
    sources. *)
Definition update_wrapper (activity : t) (fn : Callable) : t :=
  let d := __dict__ fn in
  {| base :=
       {| Activity.name := default (Activity.name (base activity)) (attr_name d);
          Activity.heartbeat :=
            default (Activity.heartbeat (base activity)) (attr_heartbeat d);
          Activity.session :=
            default (Activity.session (base activity)) (attr_session d);
          Activity.arn_slot := Activity.arn_slot (base activity) |};
     fn := default (CallableActivity.fn activity) (attr_fn d);
     sig := default (sig activity) (attr_sig d) |}.

(** [from_callable(cls, fn, name, heartbeat=20, *, session=None)] *)
Definition from_callable (fn : Callable) (name : string) (heartbeat : Z)
    (session : Session) : t :=
  let activity := __init__ name fn heartbeat session in
  update_wrapper activity fn.

(** The [for] loop of [_get_input_from]: [kwargs] is the dictionary built
    so far. *)
Fixpoint bind_parameters (params : list InspectParameter)
    (task_input kwargs : gmap string value) : result (gmap string value) :=
  match params with
  | [] => Ok kwargs
  | param :: params' =>
      let param_name := p_name param in
      let val :=
        match task_input !! param_name with
        | Some v => Some v
        | None => p_default param
        end in
      match val with
      | None =>
          Raise (KeyError ("Required parameter '" +:+ param_name
                             +:+ "' not in task input"))
      | Some v =>
          bind_parameters params' task_input (<[param_name := v]> kwargs)
      end
  end.

(** [any(p.kind is _kws for p in self.sig.parameters.values())] *)
Definition has_var_keyword (sig : Signature) : bool :=
  existsb (fun p => kind_is (p_kind p) VAR_KEYWORD) sig.

(** [_get_input_from(self, task_input)]; [kwargs.update(task_input)] lets
    the task input win on every key both have. *)
Definition _get_input_from (self : t) (task_input : gmap string value)
  : result (gmap string value) :=
  match bind_parameters (sig self) task_input ∅ with
  | Raise e => Raise e
  | Ok kwargs =>
      if has_var_keyword (sig self) then Ok (task_input ∪ kwargs)
      else Ok kwargs
  end.


(** [register] is inherited from [Activity]. *)
Definition register (assert_valid_name : string -> result unit)
  : M (t * world) unit :=
  fun st =>
    let '(r, (b, w)) :=
      Activity.register assert_valid_name "CallableActivity"
        (base st.1, st.2) in
    (r, ({| base := b; fn := fn st.1; sig := sig st.1 |}, w)).

End CallableActivity.

(** ** class ActivityRegistration *)

(** A [dict] with [str] keys, in insertion order. *)
Module Dict.
Section Ops.
Context {V : Type}.

(** [k in d] *)
Definition contains (k : string) (d : list (string * V)) : bool :=
  existsb (fun kv => String.eqb kv.1 k) d.

(** [d[k] = v]: the value of an existing key is replaced where it is, a
    new key goes last. *)
Fixpoint setitem (k : string) (v : V) (d : list (string * V))
  : list (string * V) :=
  match d with
  | [] => [(k, v)]
  | (k', v') :: d' =>
      if String.eqb k' k then (k', v) :: d'
      else (k', v') :: setitem k v d'
  end.

(** [d.values()] *)
Definition values (d : list (string * V)) : list V := map snd d.
End Ops.
End Dict.

Module ActivityRegistration.

(** What [self.activities] can hold ([dict[str, Activity]]): an instance
    of [Activity] or of its subclass [CallableActivity]. *)
Inductive member : Type :=
  | Bare (a : Activity.t)
  | WithCallable (c : CallableActivity.t).

Definition as_activity (m : member) : Activity.t :=
  match m with
  | Bare a => a
  | WithCallable c => CallableActivity.base c
  end.

Record t : Type := {
  name : string;
  version : string;
  activities : list (string * member);
  session : Session
}.

(** [__init__(self, name, version="latest", *, session=None)] *)
Definition __init__ (name version : string) (session : Session) : t :=
  {| name := name; version := version; activities := [];
     session := session |}.

Definition set_activities (acts : list (string * member)) (self : t) : t :=
  {| name := name self; version := version self; activities := acts;
     session := session self |}.

(** What the closure [wrapper] keeps of the call [activity(name,
    heartbeat)] that made it: [pref], computed then, and the two
    arguments.  [self] is reached through the closure when the wrapper
    runs, so it is the state of the group at that time. *)
Record decorator : Type := {
  pref : string;
  deco_name : option string;
  deco_heartbeat : Z
}.

(** [activity(self, name=None, heartbeat=20)] *)
Definition activity (name_arg : option string) (heartbeat : Z)
  : M t decorator :=
  let* self := get in
  if Str.contains "!" (name self) then
    raise (ValueError "Activities group name cannot contain '!'")
  else
    ret {| pref := name self +:+ "!" +:+ version self +:+ "!";
           deco_name := name_arg;
           deco_heartbeat := heartbeat |}.

(** [fn.__name__ if name is None else name] *)
Definition suff_of (name_arg : option string) (fn : Callable) : string :=
  match name_arg with None => __name__ fn | Some n => n end.

(** [wrapper(fn)], the decorator returned by [activity]. *)
Definition wrapper (d : decorator) (fn : Callable)
  : M t CallableActivity.t :=
  let* self := get in
  let suff := suff_of (deco_name d) fn in
  if Dict.contains suff (activities self) then
    raise (ValueError ("Activity '" +:+ suff +:+ "' already registered"))
  else
    let activity :=
      CallableActivity.from_callable fn (pref d +:+ suff)
        (deco_heartbeat d) (session self) in
    let* _ :=
      modify (fun self =>
        set_activities
          (Dict.setitem suff (WithCallable activity) (activities self))
          self) in
    (* [ft.update_wrapper(activity, fn)] and [ft.wraps(fn)(activity)] update
       the object once more each; it is the object the dictionary holds. *)
    let activity :=
      CallableActivity.update_wrapper
        (CallableActivity.update_wrapper activity fn) fn in
    let* _ :=
      modify (fun self =>
        set_activities
          (Dict.setitem suff (WithCallable activity) (activities self))
          self) in
    ret activity.

(** [new_external_activity(self, name, heartbeat=20)] *)
Definition new_external_activity (name_arg : string) (heartbeat : Z)
  : M t Activity.t :=
  let* self := get in
  if Str.contains "!" (name self) then
    raise (ValueError "Activities group name cannot contain '!'")
  else
    let pref := name self +:+ "!" +:+ version self +:+ "!" in
    ret (Activity.__init__ (pref +:+ name_arg) heartbeat (session self)).

Section Register.
Context (assert_valid_name : string -> result unit).

(** [activity.register()], dispatched on the class of the object. *)
Definition register_member : M (member * world) unit :=
  fun st =>
    match st.1 with
    | Bare a =>
        let '(r, (a', w)) :=
          Activity.register assert_valid_name "Activity" (a, st.2) in
        (r, (Bare a', w))
    | WithCallable c =>
        let '(r, (c', w)) :=
          CallableActivity.register assert_valid_name (c, st.2) in
        (r, (WithCallable c', w))
    end.

(** The loop of [register]: the objects are registered in the order of
    the dictionary and the first exception ends the loop; an object
    keeps what its own [register] wrote to it. *)
Fixpoint register_values (acts : list (string * member)) (w : world)
  : result unit * (list (string * member) * world) :=
  match acts with
  | [] => (Ok tt, ([], w))
  | (k, m) :: rest =>
      match register_member (m, w) with
      | (Raise e, (m', w')) => (Raise e, ((k, m') :: rest, w'))
      | (Ok _, (m', w')) =>
          let '(r, (rest', w'')) := register_values rest w' in
          (r, ((k, m') :: rest', w''))
      end
  end.

(** [register(self)] *)
Definition register : M (t * world) unit :=
  fun st =>
    let '(r, (acts, w)) := register_values (activities st.1) st.2 in
    (r, (set_activities acts st.1, w)).
End Register.

(** The tuples [(version, name, arn, creationDate)] of the listing. *)
Definition activity_item : Type := string * string * string * string.

(** [act[0]] and [act[2]] *)
Definition item_version (act : activity_item) : string := act.1.1.1.
Definition item_arn_of (act : activity_item) : string := act.1.2.

(** What [a, b, c = l] raises for a list [l] of more than three items. *)
Definition too_many_values : exn :=
  ValueError "too many values to unpack (expected 3)".

(** [_get_name_and_version(self, activity_item_name)]; the list of pieces
    has at least three items when it is unpacked into three names. *)
Definition _get_name_and_version (self : t) (activity_item_name : string)
  : result (option (string * string)) :=
  let name_splits := Str.split "!" 3 activity_item_name in
  if (length name_splits <? 3)%nat then Ok None
  else
    match name_splits with
    | [group_name; version; activity_name] =>
        if negb (String.eqb group_name (name self)) then Ok None
        else Ok (Some (version, activity_name))
    | _ => Raise too_many_values
    end.

(** The loop of [_list_activities]; [acts] is the list built so far. *)
Fixpoint list_loop (self : t) (resp : list ActivityListItem)
    (acts : list activity_item) : result (list activity_item) :=
  match resp with
  | [] => Ok acts
  | act :: resp' =>
      match _get_name_and_version self (item_name act) with
      | Raise e => Raise e
      | Ok None => list_loop self resp' acts
      | Ok (Some (version, name)) =>
          list_loop self resp'
            (acts ++ [(version, name, item_arn act, item_creationDate act)])
      end
  end.

(** [_list_activities(self)] *)
Definition _list_activities (self : t) : M world (list activity_item) :=
  let* resp := collect_paginated_list_activities (session self) in
  lift_result (list_loop self resp []).

(** [version is None] and [act[0] == version] for an optional [version]. *)
Definition is_None (version : option string) : bool :=
  match version with None => true | Some _ => false end.

Definition str_eq (s : string) (version : option string) : bool :=
  match version with None => false | Some v => String.eqb s v end.

(** The loop of [_filter_versions]; [acts] is the list built so far. *)
Fixpoint filter_loop (self : t) (activity_items : list activity_item)
    (version_arg : option string) (acts : list activity_item)
  : list activity_item :=
  match activity_items with
  | [] => acts
  | act :: items' =>
      if is_None version_arg
         && negb (String.eqb (item_version act) (version self))
      then filter_loop self items' version_arg (acts ++ [act])
      else if negb (is_None version_arg)
              && str_eq (item_version act) version_arg
      then filter_loop self items' version_arg (acts ++ [act])
      else filter_loop self items' version_arg acts
  end.

(** [_filter_versions(self, activity_items, version=None)] *)
Definition _filter_versions (self : t) (activity_items : list activity_item)
    (version_arg : option string) : list activity_item :=
  filter_loop self activity_items version_arg [].

(** The loop of [_deregister_activities]. *)
Fixpoint delete_loop (self : t) (activity_items : list activity_item)
  : M world unit :=
  match activity_items with
  | [] => ret tt
  | act :: items' =>
      let* _ := sfn_delete_activity (session self) (item_arn_of act) in
      delete_loop self items'
  end.

(** [_deregister_activities(self, activity_items)] *)
Definition _deregister_activities (self : t)
    (activity_items : list activity_item) : M world unit :=
  let* _ := _logger_info ("Deregistering "
                            +:+ Str.of_nat (length activity_items)
                            +:+ " activities") in
  delete_loop self activity_items.

(** [deregister(self, version=None)] *)
Definition deregister (self : t) (version_arg : option string)
  : M world unit :=
  let* acts := _list_activities self in
  let acts := _filter_versions self acts version_arg in
  _deregister_activities self acts.

End ActivityRegistration.

(** ** Concrete sessions, callables and groups used by the examples *)

Module Fixtures.

(** A service that registers every name under the identifier the client
    expects, lists [listing] and deletes without complaint. *)
Definition sfn_of (region account : string)
    (listing : list ActivityListItem) : SFN :=
  {| on_create_activity := fun _ name =>
       Ok {| activityArn := "arn:aws:states:" +:+ region +:+ ":" +:+ account
                              +:+ ":activity:" +:+ name;
             creationDate := "2018-07-12 10:00:00" |};
     on_list_activities := fun _ => Ok listing;
     on_delete_activity := fun _ _ => Ok tt |}.

Definition session_of (listing : list ActivityListItem) : Session :=
  {| region := "eu-west-1"; account_id := "123456789012";
     sfn := sfn_of "eu-west-1" "123456789012" listing |}.

Definition session0 : Session := session_of [].

Definition any_name_valid (name : string) : result unit := Ok tt.

Definition param_a : InspectParameter :=
  {| p_name := "a"; p_kind := POSITIONAL_OR_KEYWORD; p_default := None |}.

Definition param_b : InspectParameter :=
  {| p_name := "b"; p_kind := POSITIONAL_OR_KEYWORD;
     p_default := Some (VInt 1) |}.

Definition param_kw : InspectParameter :=
  {| p_name := "kw"; p_kind := VAR_KEYWORD; p_default := None |}.

(** [def charge(a, b=1): ...] *)
Definition charge : Callable :=
  {| __name__ := "charge"; parameters := [param_a; param_b];
     __call__ := fun _ => Ok VNone;
     __dict__ := no_attributes |}.

(** [def collect(a, **kw): ...] *)
Definition collect : Callable :=
  {| __name__ := "collect"; parameters := [param_a; param_kw];
     __call__ := fun kwargs => Ok (VInt (Z.of_nat (size kwargs)));
     __dict__ := no_attributes |}.

Definition charge_activity : CallableActivity.t :=
  CallableActivity.from_callable charge "billing!2.1!charge" 20 session0.

Definition collect_activity : CallableActivity.t :=
  CallableActivity.from_callable collect "billing!2.1!collect" 20 session0.

Definition billing : ActivityRegistration.t :=
  ActivityRegistration.__init__ "billing" "2.1" session0.

(** [billing] after [@billing.activity() def charge(a, b=1)]. *)
Definition billing_with_charge : ActivityRegistration.t :=
  ActivityRegistration.set_activities
    [("charge", ActivityRegistration.WithCallable charge_activity)] billing.

(** The closure that [billing.activity()] returns. *)
Definition billing_decorator : ActivityRegistration.decorator :=
  {| ActivityRegistration.pref := "billing!2.1!";
     ActivityRegistration.deco_name := None;
     ActivityRegistration.deco_heartbeat := 20 |}.

(** A group whose version contains the delimiter. *)
Definition staging : ActivityRegistration.t :=
  ActivityRegistration.__init__ "g" "1!0" session0.

Definition remote_listing : list ActivityListItem :=
  [ {| item_name := "billing!1.0!charge";
       item_arn := "arn:aws:states:eu-west-1:123456789012:activity:billing!1.0!charge";
       item_creationDate := "2018-07-01" |};
    {| item_name := "billing!2.1!charge!v2";
       item_arn := "arn:aws:states:eu-west-1:123456789012:activity:billing!2.1!charge!v2";
       item_creationDate := "2018-07-02" |} ].

Definition billing_remote : ActivityRegistration.t :=
  ActivityRegistration.__init__ "billing" "2.1" (session_of remote_listing).

End Fixtures.

(** ** Vocabulary of the statements *)

(** The states of a group that the class can produce: a new group, and a
    group after a declaration that returned. *)
Inductive reachable : ActivityRegistration.t -> Prop :=
  | reachable_init name version session :
      reachable (ActivityRegistration.__init__ name version session)
  | reachable_declare self name_arg heartbeat fn d act self' :
      reachable self ->
      ActivityRegistration.activity name_arg heartbeat self = (Ok d, self) ->
      ActivityRegistration.wrapper d fn self = (Ok act, self') ->
      reachable self'.

(** The states of a group in which only callables without attributes of
    their own, such as plain functions, were declared. *)
Inductive declared_plainly : ActivityRegistration.t -> Prop :=
  | plainly_init name version session :
      declared_plainly (ActivityRegistration.__init__ name version session)
  | plainly_declare self name_arg heartbeat fn d act self' :
      declared_plainly self ->
      __dict__ fn = no_attributes ->
      ActivityRegistration.activity name_arg heartbeat self = (Ok d, self) ->
      ActivityRegistration.wrapper d fn self = (Ok act, self') ->
      declared_plainly self'.

(** Whether the loop of [_get_input_from] finds a value for the parameter:
    a key of the task input or a default. *)
Definition resolvable (task_input : gmap string value)
    (p : InspectParameter) : bool :=
  match task_input !! p_name p, p_default p with
  | None, None => false
  | _, _ => true
  end.


(** The creation calls for the names of the objects of a dictionary, in its
    order. *)
Definition creation_calls (acts : list (string * ActivityRegistration.member))
  : list call :=
  map (fun km =>
         create_activity
           (Activity.name (ActivityRegistration.as_activity km.2)))
      acts.


(** ** Further examples and vocabulary *)

Module Scenario.

Definition param_extra : InspectParameter :=
  {| p_name := "extra"; p_kind := VAR_KEYWORD; p_default := None |}.

(** [def tally(a, **extra): ...] *)
Definition tally : Callable :=
  {| __name__ := "tally"; parameters := [Fixtures.param_a; param_extra];
     __call__ := fun kwargs => Ok (VInt (Z.of_nat (size kwargs)));
     __dict__ := no_attributes |}.

Definition tally_activity : CallableActivity.t :=
  CallableActivity.from_callable tally "billing!2.1!tally" 20
    Fixtures.session0.

(** The object that [@billing.activity()] made of [charge], taken as a
    callable again: it is called and named like [charge], and its attribute
    dictionary holds the attributes of the activity. *)
Definition declared_charge : Callable :=
  {| __name__ := "charge";
     parameters := [Fixtures.param_a; Fixtures.param_b];
     __call__ := __call__ Fixtures.charge;
     __dict__ :=
       {| attr_name := Some "billing!2.1!charge";
          attr_heartbeat := Some 20%Z;
          attr_session := Some Fixtures.session0;
          attr_fn := Some Fixtures.charge;
          attr_sig := Some [Fixtures.param_a; Fixtures.param_b] |} |}.

(** Three old versions of [billing] and the live one, at a service that
    refuses to delete the second. *)
Definition remote_versions : list ActivityListItem :=
  [ {| item_name := "billing!1.0!charge"; item_arn := "arn:1.0";
       item_creationDate := "2018-07-01" |};
    {| item_name := "billing!1.5!charge"; item_arn := "arn:1.5";
       item_creationDate := "2018-07-02" |};
    {| item_name := "billing!1.7!charge"; item_arn := "arn:1.7";
       item_creationDate := "2018-07-03" |};
    {| item_name := "billing!2.1!charge"; item_arn := "arn:2.1";
       item_creationDate := "2018-07-04" |} ].

Definition billing_refused : ActivityRegistration.t :=
  ActivityRegistration.__init__ "billing" "2.1"
    {| region := "eu-west-1"; account_id := "123456789012";
       sfn :=
         {| on_create_activity :=
              on_create_activity (sfn Fixtures.session0);
            on_list_activities := fun _ => Ok remote_versions;
            on_delete_activity := fun _ arn =>
              if String.eqb arn "arn:1.5"
              then Raise (ClientError "AccessDeniedException")
              else Ok tt |} |}.

(** A validation of names that refuses the name of [charge]. *)
Definition charge_is_refused (name : string) : result unit :=
  if String.eqb name "billing!2.1!charge"
  then Raise (ValueError "Invalid name") else Ok tt.

(** [billing] after the declarations of [charge] and [collect]. *)
Definition billing_with_two : ActivityRegistration.t :=
  ActivityRegistration.set_activities
    [("charge", ActivityRegistration.WithCallable Fixtures.charge_activity);
     ("collect", ActivityRegistration.WithCallable Fixtures.collect_activity)]
    Fixtures.billing.

(** The remote activities of the end-to-end scenario: two versions of
    [billing] and one activity of another group. *)
Definition remote_three : list ActivityListItem :=
  [ {| item_name := "billing!1.0!charge"; item_arn := "arn:old";
       item_creationDate := "2018-07-01" |};
    {| item_name := "billing!2.1!charge"; item_arn := "arn:live";
       item_creationDate := "2018-07-02" |};
    {| item_name := "other!2.1!charge"; item_arn := "arn:other";
       item_creationDate := "2018-07-03" |} ].

Definition billing_live : ActivityRegistration.t :=
  ActivityRegistration.__init__ "billing" "2.1"
    (Fixtures.session_of remote_three).

End Scenario.

(** What Python guarantees of a signature: the names are distinct and a
    variadic parameter has no default. *)
Definition well_formed_signature (sig : Signature) : Prop :=
  NoDup (p_name <$> sig)
  /\ Forall (fun p => kind_is (p_kind p) VAR_KEYWORD = true
                      -> p_default p = None) sig.

(** The value the loop of [_get_input_from] gives a parameter, if any. *)
Definition resolve (task_input : gmap string value)
    (p : InspectParameter) : option value :=
  match task_input !! p_name p with
  | Some v => Some v
  | None => p_default p
  end.

(** An entry of [activities] as the declaration of a plain function in the
    group [self] leaves it: a [CallableActivity] of the group's session,
    named after the group, its version and the key, with the signature of
    its function. *)
Definition declared_in (self : ActivityRegistration.t)
    (km : string * ActivityRegistration.member) : Prop :=
  exists c,
    km.2 = ActivityRegistration.WithCallable c
    /\ Activity.name (CallableActivity.base c)
       = ActivityRegistration.name self +:+ "!"
           +:+ ActivityRegistration.version self +:+ "!" +:+ km.1
    /\ Activity.session (CallableActivity.base c)
       = ActivityRegistration.session self
    /\ CallableActivity.sig c = parameters (CallableActivity.fn c).

(** The deletion calls for the identifiers of listed items, in order. *)
Definition deletion_calls (items : list ActivityRegistration.activity_item)
  : list call :=
  map (fun act => delete_activity (ActivityRegistration.item_arn_of act))
      items.

(** What the service answers to the delete call for item [i] of [items],
    when [before] are the calls made before the first delete call and the
    delete calls for the items before [i] have been made. *)
Definition delete_answer (self : ActivityRegistration.t) (before : list call)
    (items : list ActivityRegistration.activity_item) (i : nat)
  : option (result unit) :=
  match items !! i with
  | Some act =>
      Some (on_delete_activity (sfn (ActivityRegistration.session self))
              (before ++ deletion_calls (take i items))
              (ActivityRegistration.item_arn_of act))
  | None => None
  end.

(** An activity, and an object of a group, with the slot of the identifier
    emptied. *)
Definition clear_arn (a : Activity.t) : Activity.t :=
  Activity.__init__ (Activity.name a) (Activity.heartbeat a)
    (Activity.session a).

Definition without_arn (m : ActivityRegistration.member)
  : ActivityRegistration.member :=
  match m with
  | ActivityRegistration.Bare a => ActivityRegistration.Bare (clear_arn a)
  | ActivityRegistration.WithCallable c =>
      ActivityRegistration.WithCallable
        {| CallableActivity.base := clear_arn (CallableActivity.base c);
           CallableActivity.fn := CallableActivity.fn c;
           CallableActivity.sig := CallableActivity.sig c |}
  end.

(** An object of a group with its identifier stored in its slot. *)
Definition with_arn (m : ActivityRegistration.member)
  : ActivityRegistration.member :=
  match m with
  | ActivityRegistration.Bare a =>
      ActivityRegistration.Bare
        (Activity.store_arn (Activity.generated_arn a) a)
  | ActivityRegistration.WithCallable c =>
      ActivityRegistration.WithCallable
        {| CallableActivity.base :=
             Activity.store_arn
               (Activity.generated_arn (CallableActivity.base c))
               (CallableActivity.base c);
           CallableActivity.fn := CallableActivity.fn c;
           CallableActivity.sig := CallableActivity.sig c |}
  end.

(** A service that answers every creation with the identifier the client
    computes for the name. *)
Definition answers_expected (s : Session) : Prop :=
  forall history name,
    exists date,
      on_create_activity (sfn s) history name
      = Ok {| activityArn := "arn:aws:states:" +:+ region s +:+ ":"
                               +:+ account_id s +:+ ":activity:" +:+ name;
              creationDate := date |}.

(** An activity whose registration meets no obstacle: a valid name, such a
    service, and no stale identifier in its slot. *)
Definition registrable (assert_valid_name : string -> result unit)
    (a : Activity.t) : Prop :=
  assert_valid_name (Activity.name a) = Ok tt
  /\ answers_expected (Activity.session a)
  /\ (Activity.arn_slot a = None
      \/ Activity.arn_slot a = Some (Activity.generated_arn a)).

(** * Properties *)

(** ** Splitting composite names *)

Section Splitting.
Implicit Types (s t : string) (c sep : ascii).

Lemma append_cons c s t : String c s +:+ t = String c (s +:+ t).
Proof. reflexivity. Qed.

Lemma append_assoc s t u : (s +:+ t) +:+ u = s +:+ t +:+ u.
Proof.
  induction s as [|c s IH]; [reflexivity|].
  by rewrite !append_cons, IH.
Qed.

Lemma contains_cons_false c sep s :
  Str.contains sep (String c s) = false ->
  Ascii.eqb c sep = false /\ Str.contains sep s = false.
Proof. cbn. by destruct (Ascii.eqb c sep). Qed.

(** A string without the separator is one piece. *)
Lemma split_no_sep sep n s :
  Str.contains sep s = false -> Str.split sep n s = [s].
Proof.
  induction s as [|c s IH]; intros H; [reflexivity|].
  apply contains_cons_false in H as [Hc Hs]. cbn.
  destruct n as [|n]; [reflexivity|].
  by rewrite Hc, (IH Hs).
Qed.

(** The first split is made at the first separator. *)
Lemma split_app_sep sep n s t :
  Str.contains sep s = false ->
  Str.split sep (S n) (s +:+ String sep t) = s :: Str.split sep n t.
Proof.
  induction s as [|c s IH]; intros H.
  - change ("" +:+ String sep t) with (String sep t). cbn.
    by rewrite Ascii.eqb_refl.
  - apply contains_cons_false in H as [Hc Hs].
    rewrite append_cons. cbn. by rewrite Hc, (IH Hs).
Qed.

(** The number of pieces is one more than the number of splits made. *)
Lemma split_length sep n s :
  length (Str.split sep n s) = S (Nat.min n (Str.count sep s)).
Proof.
  revert n. induction s as [|c s IH]; intros n.
  - cbn. by rewrite Nat.min_0_r.
  - cbn. destruct n as [|n]; [reflexivity|].
    destruct (Ascii.eqb c sep).
    + cbn. by rewrite IH.
    + specialize (IH (S n)).
      destruct (Str.split sep (S n) s) as [|piece pieces]; [discriminate|].
      exact IH.
Qed.

End Splitting.


(** ** The remote identifier and registration of one activity *)

Section Registering.
Implicit Types (self : Activity.t) (w : world).
Context (assert_valid_name : string -> result unit).

(** Once stored, the identifier is what every access returns, whatever
    the other attributes are by then. *)
Lemma arn_cached self v :
  Activity.arn_slot self = Some v -> Activity.arn self = (Ok v, self).
Proof. intros H. unfold Activity.arn, cached_property. by rewrite H. Qed.

Lemma arn_first self :
  Activity.arn_slot self = None ->
  Activity.arn self
  = (Ok (Activity.generated_arn self),
     Activity.store_arn (Activity.generated_arn self) self).
Proof. intros H. unfold Activity.arn, cached_property. by rewrite H. Qed.

(** [register] adds at most the creation call for the name of the
    activity, and exactly that call when it returns. *)
Lemma register_calls cls self w :
  let '(r, (_, w')) := Activity.register assert_valid_name cls (self, w) in
  (calls w' = calls w
   \/ calls w' = calls w ++ [create_activity (Activity.name self)])
  /\ (is_ok r = true ->
      calls w' = calls w ++ [create_activity (Activity.name self)]).
Proof.
  cbv [Activity.register bind on_fst on_snd get lift_result
         sfn_create_activity record_call modify raise _logger_info
         fst snd calls logs].
  destruct (assert_valid_name (Activity.name self)) as [[]|e];
    [|split; [by left|discriminate]].
  destruct (on_create_activity _ _ _) as [resp|e]; [|by split; [right|]].
  cbv [Activity.arn cached_property].
  destruct (Activity.arn_slot self) as [v|];
    destruct (String.eqb (activityArn resp) _); by split; [right|].
Qed.


(** C8.  [register] leaves the name, the heartbeat and the session of
    the activity as they were.  If the name is rejected, it raises before
    any remote call and changes nothing.  Otherwise it issues exactly one
    remote call, the creation under the activity's name; if that call
    raises, the exception is passed on and the object is unchanged; if it
    answers, the identifier of the object is in its slot from then on, and
    [register] returns when the answered identifier equals it and raises
    [AssertionError], logging nothing, when it differs. *)
Theorem register_protocol cls self w :
  let '(r, (self', w')) :=
    Activity.register assert_valid_name cls (self, w) in
  Activity.name self' = Activity.name self
  /\ Activity.heartbeat self' = Activity.heartbeat self
  /\ Activity.session self' = Activity.session self
  /\ match assert_valid_name (Activity.name self) with
     | Raise e => r = Raise e /\ self' = self /\ w' = w
     | Ok _ =>
         calls w' = calls w ++ [create_activity (Activity.name self)]
         /\ match on_create_activity (sfn (Activity.session self))
                    (calls w) (Activity.name self) with
            | Raise e => r = Raise e /\ self' = self /\ logs w' = logs w
            | Ok resp =>
                let expected :=
                  default (Activity.generated_arn self)
                    (Activity.arn_slot self) in
                Activity.arn_slot self' = Some expected
                /\ if String.eqb (activityArn resp) expected
                   then r = Ok tt
                   else r = Raise AssertionError /\ logs w' = logs w
            end
     end.
Proof.
  cbv [Activity.register bind on_fst on_snd get lift_result
         sfn_create_activity record_call modify raise _logger_info
         fst snd calls logs].
  destruct (assert_valid_name (Activity.name self)) as [[]|e]; [|done].
  destruct (on_create_activity _ _ _) as [resp|e]; [|done].
  cbv [Activity.arn cached_property].
  destruct self as [nm hb ses [v|]]; cbn;
    destruct (String.eqb (activityArn resp) _); done.
Qed.

End Registering.


(** ** Binding a task input to a signature *)

Section Binding.
Implicit Types (params : list InspectParameter).
Implicit Types (task_input kwargs : gmap string value).
Implicit Types (self : CallableActivity.t).

Lemma bind_parameters_dom params task_input kwargs kwargs' :
  CallableActivity.bind_parameters params task_input kwargs = Ok kwargs' ->
  dom kwargs' = dom kwargs ∪ list_to_set (p_name <$> params).
Proof.
  revert kwargs. induction params as [|p params IH]; intros kwargs H.
  - injection H as <-. cbn. by rewrite (right_id_L ∅ (∪)).
  - cbn in H. rewrite fmap_cons, list_to_set_cons.
    destruct (task_input !! p_name p) as [v|];
      [|destruct (p_default p) as [v|]; [|discriminate]];
      apply IH in H; rewrite H, dom_insert_L;
      by rewrite (comm_L (∪) {[p_name p]} (dom kwargs)), (assoc_L (∪)).
Qed.

Lemma bind_parameters_ok params task_input kwargs :
  is_ok (CallableActivity.bind_parameters params task_input kwargs)
  = forallb (resolvable task_input) params.
Proof.
  revert kwargs. induction params as [|p params IH]; intros kwargs.
  - reflexivity.
  - cbn. unfold resolvable at 1.
    destruct (task_input !! p_name p) as [v|];
      [|destruct (p_default p) as [v|]]; cbn; auto.
Qed.

Lemma bind_parameters_extra_key params task_input kwargs k v :
  k ∉ p_name <$> params ->
  CallableActivity.bind_parameters params (<[k := v]> task_input) kwargs
  = CallableActivity.bind_parameters params task_input kwargs.
Proof.
  revert kwargs. induction params as [|p params IH]; intros kwargs Hk.
  - reflexivity.
  - cbn in *. apply not_elem_of_cons in Hk as [Hne Hk].
    rewrite lookup_insert_ne by done.
    destruct (task_input !! p_name p) as [v'|];
      [|destruct (p_default p) as [v'|]]; auto.
Qed.

(** The first parameter without a value is the one the error names. *)
Lemma bind_parameters_raises params1 p params2 task_input kwargs :
  forallb (resolvable task_input) params1 = true ->
  task_input !! p_name p = None ->
  p_default p = None ->
  CallableActivity.bind_parameters (params1 ++ p :: params2) task_input kwargs
  = Raise (KeyError ("Required parameter '" +:+ p_name p
                       +:+ "' not in task input")).
Proof.
  revert kwargs. induction params1 as [|q params1 IH]; intros kwargs Hall Hti Hd.
  - cbn. by rewrite Hti, Hd.
  - cbn in Hall. apply andb_true_iff in Hall as [Hq Hall]. cbn.
    unfold resolvable in Hq.
    destruct (task_input !! p_name q) as [v|];
      [|destruct (p_default q) as [v|]; [|discriminate]]; by apply IH.
Qed.

(** A variadic keyword parameter is itself looked up in the task input:
    when the task input has no key of that name, binding raises for some
    parameter instead of merging. *)
Lemma var_keyword_needs_its_own_key self task_input p :
  p ∈ CallableActivity.sig self ->
  p_default p = None ->
  task_input !! p_name p = None ->
  exists msg, CallableActivity._get_input_from self task_input
              = Raise (KeyError msg).
Proof.
  intros Hin Hd Hti. unfold CallableActivity._get_input_from.
  destruct (CallableActivity.bind_parameters _ _ _) as [kwargs|e] eqn:E.
  - pose proof (bind_parameters_ok (CallableActivity.sig self) task_input ∅) as Hok.
    rewrite E in Hok. cbn in Hok. symmetry in Hok.
    rewrite forallb_forall in Hok.
    apply list_elem_of_In, Hok in Hin. unfold resolvable in Hin.
    by rewrite Hti, Hd in Hin.
  - clear Hin. revert E. generalize (∅ : gmap string value).
    induction (CallableActivity.sig self) as [|q params IH]; intros kw E.
    + discriminate.
    + cbn in E.
      destruct (task_input !! p_name q) as [v|];
        [|destruct (p_default q) as [v|]]; eauto.
Qed.

(** When binding succeeds for a signature with a variadic keyword
    parameter, the task input is merged last and wins on every key. *)
Lemma catch_all_merges_last self task_input kwargs k v :
  CallableActivity.has_var_keyword (CallableActivity.sig self) = true ->
  CallableActivity._get_input_from self task_input = Ok kwargs ->
  task_input !! k = Some v -> kwargs !! k = Some v.
Proof.
  intros Hkw H Hk. unfold CallableActivity._get_input_from in H.
  destruct (CallableActivity.bind_parameters _ _ _) as [kw|e]; [|discriminate].
  rewrite Hkw in H. injection H as <-.
  by apply lookup_union_Some_l.
Qed.

End Binding.

Section BindingClaims.
Import CallableActivity.
Implicit Types (self : CallableActivity.t).
Implicit Types (task_input kwargs : gmap string value).

(** C1 (what the code does on the input of the claim).  For
    [def collect(a, **kw)] the task input [{"a": 9, "extra": 2}] is not
    bound: the loop over [sig.parameters] also visits [kw], finds neither a
    key ["kw"] in the task input nor a default, and raises [KeyError]
    before the merge of the task input is reached. *)
Theorem catch_all_binding_raises :
  _get_input_from Fixtures.collect_activity
    {[ "a" := VInt 9; "extra" := VInt 2 ]}
  = Raise (KeyError "Required parameter 'kw' not in task input").
Proof. vm_compute. reflexivity. Qed.



(** C10.  For a signature without a variadic keyword parameter: a mapping
    that binding returns has exactly the declared parameter names as its
    keys; binding returns one exactly when every parameter has a value in
    the task input or a default; and a task-input key that is not a
    declared name changes nothing, neither the mapping nor the error. *)
Theorem bind_keys_are_declared_names self task_input :
  has_var_keyword (sig self) = false ->
  (forall kwargs,
      _get_input_from self task_input = Ok kwargs ->
      dom kwargs = list_to_set (p_name <$> sig self))
  /\ is_ok (_get_input_from self task_input)
     = forallb (resolvable task_input) (sig self)
  /\ (forall k v,
         k ∉ p_name <$> sig self ->
         _get_input_from self (<[k := v]> task_input)
         = _get_input_from self task_input).
Proof.
  intros Hkw. unfold _get_input_from. rewrite Hkw. repeat split.
  - intros kwargs H.
    destruct (bind_parameters _ _ _) as [kw|e] eqn:E; [|discriminate].
    injection H as <-. apply bind_parameters_dom in E.
    by rewrite E, dom_empty_L, (left_id_L ∅ (∪)).
  - rewrite <- (bind_parameters_ok (sig self) task_input ∅).
    by destruct (bind_parameters _ _ _).
  - intros k v Hk. by rewrite bind_parameters_extra_key.
Qed.

Lemma bind_keys_are_declared_names_witness :
  has_var_keyword (sig Fixtures.charge_activity) = false
  /\ _get_input_from Fixtures.charge_activity
       {[ "a" := VInt 5; "colour" := VStr "red" ]}
     = Ok {[ "a" := VInt 5; "b" := VInt 1 ]}
  /\ dom ({[ "a" := VInt 5; "b" := VInt 1 ]} : gmap string value)
     = list_to_set (p_name <$> sig Fixtures.charge_activity).
Proof.
  split; [reflexivity|]. split; [vm_compute; reflexivity|].
  apply (bind_keys_are_declared_names Fixtures.charge_activity
           {[ "a" := VInt 5; "colour" := VStr "red" ]} eq_refl).
  vm_compute. reflexivity.
Defined.

End BindingClaims.

(** ** Declaring activities in a group *)

Section Declaring.
Import ActivityRegistration.
Implicit Types (self : ActivityRegistration.t) (d : decorator).
Implicit Types (fn : Callable) (w : world).

Lemma activity_ok name_arg heartbeat self d self' :
  activity name_arg heartbeat self = (Ok d, self') ->
  Str.contains "!" (name self) = false
  /\ self' = self
  /\ d = {| pref := name self +:+ "!" +:+ version self +:+ "!";
            deco_name := name_arg; deco_heartbeat := heartbeat |}.
Proof.
  unfold activity, bind, get, raise, ret.
  destruct (Str.contains "!" (name self)); [discriminate|].
  by intros [= <- <-].
Qed.

(** Updating an activity from the same callable again changes nothing. *)
Lemma update_wrapper_again (act : CallableActivity.t) fn :
  CallableActivity.update_wrapper (CallableActivity.update_wrapper act fn) fn
  = CallableActivity.update_wrapper act fn.
Proof.
  unfold CallableActivity.update_wrapper. cbn.
  by destruct (attr_name _), (attr_heartbeat _), (attr_session _),
       (attr_fn _), (attr_sig _).
Qed.

(** Storing under the same key again replaces the value where it is. *)
Lemma dict_setitem_again {V} k (v v' : V) (entries : list (string * V)) :
  Dict.setitem k v (Dict.setitem k v' entries) = Dict.setitem k v entries.
Proof.
  induction entries as [|[k' v''] entries IH]; cbn.
  - by rewrite String.eqb_refl.
  - destruct (String.eqb k' k) eqn:Hk; cbn; rewrite Hk; [done|by rewrite IH].
Qed.

(** What the decorator does under a new short name: the object that
    [from_callable] made is stored and returned; the two further updates
    from the same callable leave it as it is. *)
Lemma wrapper_stores d fn self :
  Dict.contains (suff_of (deco_name d) fn) (activities self) = false ->
  wrapper d fn self
  = let suff := suff_of (deco_name d) fn in
    let act :=
      CallableActivity.from_callable fn (pref d +:+ suff) (deco_heartbeat d)
        (session self) in
    (Ok act,
     set_activities (Dict.setitem suff (WithCallable act) (activities self))
       self).
Proof.
  intros Hc. unfold wrapper, bind, get, raise, ret, modify. rewrite Hc.
  cbn zeta. unfold CallableActivity.from_callable.
  rewrite !update_wrapper_again. cbn [activities set_activities].
  by rewrite dict_setitem_again.
Qed.

Lemma wrapper_ok d fn self act self' :
  wrapper d fn self = (Ok act, self') ->
  let suff := suff_of (deco_name d) fn in
  Dict.contains suff (activities self) = false
  /\ act = CallableActivity.from_callable fn (pref d +:+ suff)
             (deco_heartbeat d) (session self)
  /\ self' = set_activities
               (Dict.setitem suff (WithCallable act) (activities self)) self.
Proof.
  intros H suff.
  destruct (Dict.contains suff (activities self)) eqn:Hc.
  - unfold wrapper, bind, get, raise in H. fold suff in H.
    rewrite Hc in H. discriminate.
  - rewrite (wrapper_stores d fn self Hc) in H. by injection H as <- <-.
Qed.

Lemma wrapper_duplicate d fn self :
  Dict.contains (suff_of (deco_name d) fn) (activities self) = true ->
  wrapper d fn self
  = (Raise (ValueError ("Activity '" +:+ suff_of (deco_name d) fn
                          +:+ "' already registered")), self).
Proof.
  intros H. unfold wrapper, bind, get, raise. by rewrite H.
Qed.

(** A group never changes its name, and only a group whose name has no
    delimiter gets activities. *)
Lemma reachable_name self :
  reachable self ->
  activities self <> [] -> Str.contains "!" (name self) = false.
Proof.
  induction 1 as [n v s|self name_arg hb fn d act self' _ _ Ha Hw].
  - intros H. by destruct H.
  - intros _. apply activity_ok in Ha as (Hname & _ & _).
    apply wrapper_ok in Hw as (_ & _ & ->). exact Hname.
Qed.

(** A composite name whose three parts have no delimiter is parsed back
    into its version and its short name. *)
Lemma get_name_and_version_full_name self short :
  Str.contains "!" (name self) = false ->
  Str.contains "!" (version self) = false ->
  Str.contains "!" short = false ->
  _get_name_and_version self
    (name self +:+ "!" +:+ version self +:+ "!" +:+ short)
  = Ok (Some (version self, short)).
Proof.
  intros Hn Hv Hs. unfold _get_name_and_version.
  change ("!" +:+ ?x) with (String "!" x).
  rewrite (split_app_sep "!" 2 (name self)) by done.
  change ("!" +:+ short) with (String "!"%char short).
  rewrite (split_app_sep "!" 1 (version self)) by done.
  rewrite (split_no_sep "!" 1 short) by done.
  cbn. by rewrite String.eqb_refl.
Qed.

(** C4 (as amended).  The full name that a declaration computes,
    [pref + suff], is [group!version!shortName], and when neither the group
    name, nor the version, nor the short name contains the delimiter, the
    listing code parses that name back into the version and the short name.
    It is the name of the declared activity whenever the function carries
    no attribute called [name] of its own. *)
Theorem minted_name_round_trips self name_arg heartbeat fn d :
  activity name_arg heartbeat self = (Ok d, self) ->
  Str.contains "!" (version self) = false ->
  Str.contains "!" (suff_of name_arg fn) = false ->
  pref d +:+ suff_of (deco_name d) fn
  = name self +:+ "!" +:+ version self +:+ "!" +:+ suff_of name_arg fn
  /\ _get_name_and_version self (pref d +:+ suff_of (deco_name d) fn)
     = Ok (Some (version self, suff_of name_arg fn))
  /\ forall act self',
       wrapper d fn self = (Ok act, self') ->
       attr_name (__dict__ fn) = None ->
       Activity.name (CallableActivity.base act)
       = pref d +:+ suff_of (deco_name d) fn
       /\ _get_name_and_version self'
            (Activity.name (CallableActivity.base act))
          = Ok (Some (version self, suff_of name_arg fn)).
Proof.
  intros Ha Hv Hs.
  apply activity_ok in Ha as (Hn & _ & ->). cbn [pref deco_name].
  rewrite !append_assoc.
  pose proof (get_name_and_version_full_name self (suff_of name_arg fn)
                Hn Hv Hs) as Hparse.
  split; [reflexivity|]. split; [exact Hparse|].
  intros act self' Hw Hplain.
  apply wrapper_ok in Hw as (_ & -> & ->).
  cbn [pref deco_name deco_heartbeat].
  unfold CallableActivity.from_callable, CallableActivity.update_wrapper.
  cbn. rewrite Hplain. cbn. rewrite !append_assoc.
  split; [reflexivity|].
  by apply (get_name_and_version_full_name
              (set_activities _ self) (suff_of name_arg fn)).
Qed.

Lemma minted_name_round_trips_witness :
  activity None 20 Fixtures.billing
    = (Ok Fixtures.billing_decorator, Fixtures.billing)
  /\ Str.contains "!" (version Fixtures.billing) = false
  /\ Str.contains "!" (suff_of None Fixtures.charge) = false
  /\ _get_name_and_version Fixtures.billing "billing!2.1!charge"
     = Ok (Some ("2.1", "charge")).
Proof.
  do 3 (split; [reflexivity|]).
  exact (proj1 (proj2 (minted_name_round_trips Fixtures.billing None 20
                         Fixtures.charge Fixtures.billing_decorator
                         eq_refl eq_refl eq_refl))).
Defined.

(** C4 (the claim as stated fails).  The group name ["g"] has no
    delimiter, but with the version ["1!0"] the name minted for the short
    name ["n"] is ["g!1!0!n"], which the listing code does not parse back
    into [("1!0", "n")]: it splits it into four pieces and raises. *)
Lemma round_trip_fails_for_delimited_version :
  Str.contains "!" (name Fixtures.staging) = false
  /\ exists d act self',
       activity (Some "n") 20 Fixtures.staging = (Ok d, Fixtures.staging)
       /\ wrapper d Fixtures.charge Fixtures.staging = (Ok act, self')
       /\ Activity.name (CallableActivity.base act) = "g!1!0!n"
       /\ _get_name_and_version self'
            (Activity.name (CallableActivity.base act))
          <> Ok (Some (version Fixtures.staging, "n")).
Proof.
  split; [reflexivity|]. eexists _, _, _.
  split; [reflexivity|]. split; [lazy; reflexivity|].
  split; [reflexivity|]. vm_compute. discriminate.
Qed.

(** C7.  In a group whose name has no delimiter (every group that has an
    activity is one, by [reachable_name]), declaring an activity under a
    short name that the mapping already has raises the [ValueError] of the
    duplicate, and leaves the group, mapping and count included, and the
    world, remote calls included, as they were. *)
Theorem duplicate_declaration_rejected self name_arg heartbeat fn w :
  Str.contains "!" (name self) = false ->
  Dict.contains (suff_of name_arg fn) (activities self) = true ->
  on_fst (let* d := activity name_arg heartbeat in wrapper d fn) (self, w)
  = (Raise (ValueError ("Activity '" +:+ suff_of name_arg fn
                          +:+ "' already registered")), (self, w)).
Proof.
  intros Hn Hdup.
  assert (activity name_arg heartbeat self
          = (Ok {| pref := name self +:+ "!" +:+ version self +:+ "!";
                   deco_name := name_arg; deco_heartbeat := heartbeat |},
             self)) as Ha.
  { unfold activity, bind, get, ret. by rewrite Hn. }
  unfold on_fst, bind. cbn [fst snd]. rewrite Ha.
  by rewrite wrapper_duplicate.
Qed.

Lemma duplicate_declaration_rejected_witness :
  Str.contains "!" (name Fixtures.billing_with_charge) = false
  /\ Dict.contains (suff_of (Some "charge") Fixtures.collect)
       (activities Fixtures.billing_with_charge) = true
  /\ on_fst (let* d := activity (Some "charge") 20 in
             wrapper d Fixtures.collect)
       (Fixtures.billing_with_charge, world0)
     = (Raise (ValueError "Activity 'charge' already registered"),
        (Fixtures.billing_with_charge, world0)).
Proof.
  split; [reflexivity|]. split; [reflexivity|].
  exact (duplicate_declaration_rejected Fixtures.billing_with_charge
           (Some "charge") 20 Fixtures.collect world0 eq_refl eq_refl).
Defined.

(** The scenario of two declarations in a new group: the first adds one
    activity, the second raises and the count stays 1. *)
Lemma declare_twice :
  let declare fn := let* d := activity None 20 in wrapper d fn in
  declare Fixtures.charge Fixtures.billing
    = (Ok Fixtures.charge_activity, Fixtures.billing_with_charge)
  /\ declare Fixtures.charge Fixtures.billing_with_charge
     = (Raise (ValueError "Activity 'charge' already registered"),
        Fixtures.billing_with_charge)
  /\ length (activities Fixtures.billing_with_charge) = 1.
Proof. repeat split. Qed.

End Declaring.

(** ** Registering a group, and external activities *)

Section RegisteringGroup.
Import ActivityRegistration.
Implicit Types (self : ActivityRegistration.t) (w : world).
Implicit Types (acts : list (string * member)).
Context (assert_valid_name : string -> result unit).

(** Registering one object adds at most the creation call for its name,
    and exactly that call when it returns. *)
Lemma register_member_calls m w :
  let '(r, (m', w')) := register_member assert_valid_name (m, w) in
  (calls w' = calls w
   \/ calls w' = calls w ++ [create_activity (Activity.name (as_activity m))])
  /\ (is_ok r = true ->
      calls w' = calls w ++ [create_activity (Activity.name (as_activity m))]).
Proof.
  unfold register_member, CallableActivity.register. cbn [fst snd].
  destruct m as [a|c]; cbn [as_activity].
  - pose proof (register_calls assert_valid_name "Activity" a w) as H.
    by destruct (Activity.register _ _ _) as [r [a' w']].
  - pose proof (register_calls assert_valid_name "CallableActivity"
                  (CallableActivity.base c) w) as H.
    by destruct (Activity.register _ _ _) as [r [a' w']].
Qed.

(** The remote calls of the loop are creation calls for the names of the
    objects in the dictionary, in its order, up to the one that raised. *)
Lemma register_values_calls acts w :
  let '(r, (_, w')) := register_values assert_valid_name acts w in
  exists k,
    calls w' = calls w ++ creation_calls (take k acts)
    /\ (is_ok r = true -> k = length acts).
Proof.
  revert w. induction acts as [|[key m] acts IH]; intros w.
  - cbn. exists 0. by rewrite app_nil_r.
  - cbn [register_values].
    pose proof (register_member_calls m w) as Hm.
    destruct (register_member _ _) as [[[]|e] [m' w']].
    + destruct Hm as [_ Hm]. specialize (Hm eq_refl).
      specialize (IH w').
      destruct (register_values _ acts w') as [r [rest' w'']].
      destruct IH as (k & Hk & Hok). exists (S k). split.
      * rewrite Hk, Hm. cbn. by rewrite <- app_assoc.
      * intros Hr. cbn. by rewrite (Hok Hr).
    + destruct Hm as [[Hm|Hm] _].
      * exists 0. cbn. by rewrite app_nil_r.
      * exists 1. by cbn.
Qed.

(** C2 (as amended).  In a group whose name has no delimiter,
    [new_external_activity] returns a new [Activity] named
    [group!version!name] and leaves the group as it was: the activity is
    not put in [activities].  The remote calls of the group's [register]
    are creation calls for names of objects in [activities] only, for all
    of them when it returns. *)
Theorem external_activity_is_returned_only self name_arg heartbeat :
  Str.contains "!" (name self) = false ->
  new_external_activity name_arg heartbeat self
  = (Ok (Activity.__init__
           (name self +:+ "!" +:+ version self +:+ "!" +:+ name_arg)
           heartbeat (session self)),
     self)
  /\ forall w,
       let '(r, (_, w')) := register assert_valid_name (self, w) in
       exists k,
         calls w' = calls w ++ creation_calls (take k (activities self))
         /\ (is_ok r = true -> k = length (activities self)).
Proof.
  intros Hn. split.
  - unfold new_external_activity, bind, get, ret. rewrite Hn.
    by rewrite !append_assoc.
  - intros w. unfold register. cbn [fst snd].
    pose proof (register_values_calls (activities self) w) as H.
    by destruct (register_values _ _ _) as [r [acts' w']].
Qed.

End RegisteringGroup.

Lemma external_activity_is_returned_only_witness :
  Str.contains "!" (ActivityRegistration.name Fixtures.billing_with_charge)
    = false
  /\ ActivityRegistration.new_external_activity "refund" 20
       Fixtures.billing_with_charge
     = (Ok (Activity.__init__ "billing!2.1!refund" 20 Fixtures.session0),
        Fixtures.billing_with_charge).
Proof.
  split; [reflexivity|].
  exact (proj1 (external_activity_is_returned_only Fixtures.any_name_valid
                  Fixtures.billing_with_charge "refund" 20 eq_refl)).
Defined.

(** C2 (the claim as stated fails).  In the group [billing], which holds
    the activity [charge], declaring the external activity [refund] returns
    the [Activity] named ["billing!2.1!refund"], but [activities] still
    holds [charge] alone, and the group's [register] issues the creation
    call for [charge] and none for [refund]. *)
Lemma external_activity_not_in_group :
  ActivityRegistration.new_external_activity "refund" 20
    Fixtures.billing_with_charge
  = (Ok (Activity.__init__ "billing!2.1!refund" 20 Fixtures.session0),
     Fixtures.billing_with_charge)
  /\ Dict.values (ActivityRegistration.activities Fixtures.billing_with_charge)
     = [ActivityRegistration.WithCallable Fixtures.charge_activity]
  /\ (let '(r, (_, w')) :=
        ActivityRegistration.register Fixtures.any_name_valid
          (Fixtures.billing_with_charge, world0) in
      r = Ok tt /\ calls w' = [create_activity "billing!2.1!charge"]).
Proof. repeat split. Qed.
(** ** Listing the remote activities *)

Section Listing.
Import ActivityRegistration.
Implicit Types (self : ActivityRegistration.t).
Implicit Types (acts items : list activity_item).

(** Fewer than two delimiters: the name is discarded. *)
Lemma get_name_and_version_short self s :
  Str.count "!" s < 2 -> _get_name_and_version self s = Ok None.
Proof.
  intros H. unfold _get_name_and_version.
  pose proof (split_length "!" 3 s) as Hlen.
  destruct (Nat.ltb_spec (length (Str.split "!" 3 s)) 3) as [_|Hge];
    [reflexivity|lia].
Qed.

(** Three delimiters or more: unpacking the four pieces raises. *)
Lemma get_name_and_version_long self s :
  3 <= Str.count "!" s -> _get_name_and_version self s = Raise too_many_values.
Proof.
  intros H. unfold _get_name_and_version.
  pose proof (split_length "!" 3 s) as Hlen.
  rewrite Nat.min_l in Hlen by done.
  destruct (Str.split "!" 3 s) as [|a [|b [|c [|d [|e l]]]]];
    try discriminate Hlen.
  reflexivity.
Qed.

(** The only exception [_get_name_and_version] raises. *)
Lemma get_name_and_version_raises self s e :
  _get_name_and_version self s = Raise e -> e = too_many_values.
Proof.
  unfold _get_name_and_version.
  destruct (_ <? _)%nat; [discriminate|].
  destruct (Str.split "!" 3 s) as [|a [|b [|c [|d l]]]];
    try (by intros [= <-]).
  by destruct (negb _).
Qed.

(** One name with three delimiters in the remote listing, of whatever
    group, makes the whole listing raise. *)
Lemma list_loop_raises self resp acts act :
  act ∈ resp -> 3 <= Str.count "!" (item_name act) ->
  list_loop self resp acts = Raise too_many_values.
Proof.
  intros Hin Hlong. revert acts.
  induction resp as [|a resp IH]; intros acts; [by apply elem_of_nil in Hin|].
  cbn. apply elem_of_cons in Hin as [<-|Hin].
  - by rewrite get_name_and_version_long.
  - destruct (_get_name_and_version self (item_name a)) as [[[v n]|]|e] eqn:E;
      auto.
    by rewrite (get_name_and_version_raises _ _ _ E).
Qed.

(** When every remote name has at most two delimiters, the listing keeps,
    in order, the names of three pieces whose first piece is the group's
    name, and drops the others. *)
Lemma list_loop_well_formed self resp acts :
  Forall (fun act => Str.count "!" (item_name act) <= 2) resp ->
  list_loop self resp acts
  = Ok (acts ++ omap (fun act =>
                        match Str.split "!" 3 (item_name act) with
                        | [g; v; n] =>
                            if String.eqb g (name self)
                            then Some (v, n, item_arn act, item_creationDate act)
                            else None
                        | _ => None
                        end) resp).
Proof.
  intros Hall. revert acts.
  induction Hall as [|a resp Ha Hall IH]; intros acts.
  - cbn. by rewrite app_nil_r.
  - cbn. unfold _get_name_and_version.
    assert (length (Str.split "!" 3 (item_name a)) <= 3) as Hlen
      by (rewrite split_length; lia).
    destruct (Str.split "!" 3 (item_name a)) as [|g [|v [|n [|x l]]]];
      cbn in Hlen; try lia; cbn; try (by rewrite IH).
    destruct (String.eqb g (name self)); cbn; rewrite IH; [|done].
    by rewrite <- app_assoc.
Qed.

(** C3 (what the code does on a listing with a long name).  With the
    remote names ["billing!1.0!charge"] and ["billing!2.1!charge!v2"], the
    listing of the group [billing] raises [ValueError] after its one remote
    call: the name with three delimiters splits into four pieces, which
    pass the length test and cannot be unpacked into three names. *)
Theorem list_activities_raises_on_long_name :
  _list_activities Fixtures.billing_remote world0
  = (Raise (ValueError "too many values to unpack (expected 3)"),
     {| calls := [list_activities]; logs := [] |}).
Proof. vm_compute. reflexivity. Qed.

End Listing.

(** ** Filtering the listing by version *)

Section Filtering.
Import ActivityRegistration.
Implicit Types (self : ActivityRegistration.t).
Implicit Types (acts items : list activity_item).

Lemma filter_loop_omitted self items acts :
  filter_loop self items None acts
  = acts ++ filter (fun act => item_version act <> version self) items.
Proof.
  revert acts. induction items as [|act items IH]; intros acts.
  - cbn. by rewrite app_nil_r.
  - cbn [filter_loop is_None andb negb str_eq].
    destruct (String.eqb_spec (item_version act) (version self)) as [He|Hne];
      cbn [negb]; rewrite IH.
    + by rewrite filter_cons_False by (intros H; by apply H).
    + rewrite filter_cons_True by done. by rewrite <- app_assoc.
Qed.

Lemma filter_loop_given self items v acts :
  filter_loop self items (Some v) acts
  = acts ++ filter (fun act => item_version act = v) items.
Proof.
  revert acts. induction items as [|act items IH]; intros acts.
  - cbn. by rewrite app_nil_r.
  - cbn [filter_loop is_None andb negb str_eq].
    destruct (String.eqb_spec (item_version act) v) as [He|Hne]; rewrite IH.
    + rewrite filter_cons_True by done. by rewrite <- app_assoc.
    + by rewrite filter_cons_False by done.
Qed.

(** C6.  Without a version, [_filter_versions] returns, in order, exactly
    the items whose version differs from the version of the group, so none
    of the group's own version; with a version, exactly the items of that
    version. *)
Theorem filter_versions_by_mode self items :
  _filter_versions self items None
    = filter (fun act => item_version act <> version self) items
  /\ (forall v,
        _filter_versions self items (Some v)
        = filter (fun act => item_version act = v) items)
  /\ Forall (fun act => item_version act <> version self)
       (_filter_versions self items None).
Proof.
  unfold _filter_versions. rewrite filter_loop_omitted. cbn [app].
  split; [reflexivity|]. split.
  - intros v. by rewrite filter_loop_given.
  - apply Forall_forall. intros act Hin.
    by apply list_elem_of_filter in Hin as [? _].
Qed.

(** The three items of versions 1.0, 1.0 and 2.0 for a group of version
    1.0. *)
Lemma filter_versions_example :
  let self := ActivityRegistration.__init__ "billing" "1.0" Fixtures.session0 in
  let i1 : activity_item := ("1.0", "charge", "arn1", "d1") in
  let i2 : activity_item := ("1.0", "refund", "arn2", "d2") in
  let i3 : activity_item := ("2.0", "charge", "arn3", "d3") in
  _filter_versions self [i1; i2; i3] None = [i3]
  /\ _filter_versions self [i1; i2; i3] (Some "1.0") = [i1; i2].
Proof. split; reflexivity. Qed.

End Filtering.

(** ** More on binding *)

Section BindingValues.
Import CallableActivity.
Implicit Types (params : list InspectParameter) (self : CallableActivity.t).
Implicit Types (task_input kwargs : gmap string value).

Lemma resolvable_resolve task_input p :
  resolvable task_input p = false <-> resolve task_input p = None.
Proof.
  unfold resolvable, resolve.
  destruct (task_input !! p_name p), (p_default p); by split.
Qed.

(** The loop leaves the keys that are no parameter names as they were, and
    gives each parameter name its resolved value. *)
Lemma bind_parameters_lookup params task_input kwargs kwargs' :
  NoDup (p_name <$> params) ->
  bind_parameters params task_input kwargs = Ok kwargs' ->
  (forall p, p ∈ params -> kwargs' !! p_name p = resolve task_input p)
  /\ (forall k, k ∉ p_name <$> params -> kwargs' !! k = kwargs !! k).
Proof.
  revert kwargs. induction params as [|q params IH]; intros kwargs Hnd H.
  - injection H as <-. split; [|done]. intros p Hp. by apply elem_of_nil in Hp.
  - rewrite fmap_cons in Hnd. apply NoDup_cons in Hnd as [Hq Hnd].
    cbn in H. fold (resolve task_input q) in H.
    destruct (resolve task_input q) as [v|] eqn:Hv; [|discriminate].
    destruct (IH _ Hnd H) as [Hin Hout]. split.
    + intros p Hp. apply elem_of_cons in Hp as [->|Hp]; [|by apply Hin].
      by rewrite (Hout _ Hq), lookup_insert_eq.
    + intros k Hk. rewrite fmap_cons in Hk.
      apply not_elem_of_cons in Hk as [Hne Hk].
      by rewrite (Hout _ Hk), lookup_insert_ne.
Qed.

(** X1.  Whenever binding returns, with or without a catch-all, the
    argument bound to each declared parameter is the value the task input
    has under the parameter's name, and the parameter's default when the
    task input has no such key. *)
Theorem bound_value_is_input_or_default self task_input kwargs p :
  NoDup (p_name <$> sig self) ->
  _get_input_from self task_input = Ok kwargs ->
  p ∈ sig self ->
  kwargs !! p_name p
  = match task_input !! p_name p with
    | Some v => Some v
    | None => p_default p
    end.
Proof.
  intros Hnd H Hp. unfold _get_input_from in H.
  destruct (bind_parameters _ _ _) as [kw|e] eqn:E; [|discriminate].
  destruct (bind_parameters_lookup _ _ _ _ Hnd E) as [Hin _].
  specialize (Hin p Hp). unfold resolve in Hin.
  destruct (has_var_keyword (sig self)); injection H as <-; [|done].
  rewrite lookup_union, Hin.
  destruct (task_input !! p_name p); [reflexivity|].
  by destruct (p_default p).
Qed.

Lemma bound_value_is_input_or_default_witness :
  NoDup (p_name <$> sig Fixtures.charge_activity)
  /\ _get_input_from Fixtures.charge_activity {[ "a" := VInt 5 ]}
     = Ok {[ "a" := VInt 5; "b" := VInt 1 ]}
  /\ Fixtures.param_b ∈ sig Fixtures.charge_activity
  /\ ({[ "a" := VInt 5; "b" := VInt 1 ]} : gmap string value) !! "b"
     = Some (VInt 1).
Proof.
  assert (NoDup (p_name <$> sig Fixtures.charge_activity)) as Hnd
    by (apply (bool_decide_unpack _); vm_compute; exact I).
  assert (Fixtures.param_b ∈ sig Fixtures.charge_activity) as Hin
    by (apply list_elem_of_further, list_elem_of_here).
  assert (_get_input_from Fixtures.charge_activity {[ "a" := VInt 5 ]}
          = Ok {[ "a" := VInt 5; "b" := VInt 1 ]}) as Hb
    by (vm_compute; reflexivity).
  split; [exact Hnd|]. split; [exact Hb|]. split; [exact Hin|].
  exact (bound_value_is_input_or_default Fixtures.charge_activity
           {[ "a" := VInt 5 ]} {[ "a" := VInt 5; "b" := VInt 1 ]}
           Fixtures.param_b Hnd Hb Hin).
Defined.

(** X2.  The error of a failed binding names the first parameter, in
    declaration order, that has neither a key in the task input nor a
    default; the parameters after it are not looked at, and a catch-all
    does not prevent the error. *)
Theorem first_missing_parameter_is_reported self task_input ps1 p ps2 :
  sig self = ps1 ++ p :: ps2 ->
  forallb (resolvable task_input) ps1 = true ->
  resolvable task_input p = false ->
  _get_input_from self task_input
  = Raise (KeyError ("Required parameter '" +:+ p_name p
                       +:+ "' not in task input")).
Proof.
  intros Hsig Hps1 Hp. unfold _get_input_from. rewrite Hsig.
  unfold resolvable in Hp.
  destruct (task_input !! p_name p) as [v|] eqn:Hti; [discriminate|].
  destruct (p_default p) as [v|] eqn:Hd; [discriminate|].
  by rewrite (bind_parameters_raises ps1 p ps2 task_input ∅ Hps1 Hti Hd).
Qed.

Lemma first_missing_parameter_is_reported_witness :
  sig Fixtures.collect_activity = [Fixtures.param_a] ++ Fixtures.param_kw :: []
  /\ forallb (resolvable {[ "a" := VInt 9; "extra" := VInt 2 ]})
       [Fixtures.param_a] = true
  /\ resolvable {[ "a" := VInt 9; "extra" := VInt 2 ]} Fixtures.param_kw
     = false
  /\ is_ok (_get_input_from Fixtures.collect_activity
              {[ "a" := VInt 9; "extra" := VInt 2 ]}) = false.
Proof.
  assert (forallb (resolvable {[ "a" := VInt 9; "extra" := VInt 2 ]})
            [Fixtures.param_a] = true) as H1 by (vm_compute; reflexivity).
  assert (resolvable {[ "a" := VInt 9; "extra" := VInt 2 ]} Fixtures.param_kw
          = false) as H2 by (vm_compute; reflexivity).
  split; [reflexivity|]. split; [exact H1|]. split; [exact H2|].
  by rewrite (first_missing_parameter_is_reported Fixtures.collect_activity
                {[ "a" := VInt 9; "extra" := VInt 2 ]}
                [Fixtures.param_a] Fixtures.param_kw [] eq_refl H1 H2).
Defined.

(** X3.  For a signature with a catch-all, binding returns only when the
    task input has a key with the very name of the catch-all parameter;
    the mapping it then returns has the declared names and all the keys of
    the task input as its keys, and each key of the task input carries the
    task input's value. *)
Theorem catch_all_binding_shape self task_input kwargs :
  well_formed_signature (sig self) ->
  has_var_keyword (sig self) = true ->
  _get_input_from self task_input = Ok kwargs ->
  (exists p, p ∈ sig self /\ p_kind p = VAR_KEYWORD
             /\ is_Some (task_input !! p_name p))
  /\ dom kwargs = list_to_set (p_name <$> sig self) ∪ dom task_input
  /\ (forall k v, task_input !! k = Some v -> kwargs !! k = Some v).
Proof.
  intros [_ Hwf] Hkw H. unfold _get_input_from in H.
  destruct (bind_parameters _ _ _) as [kw|e] eqn:E; [|discriminate].
  rewrite Hkw in H. injection H as <-. split; [|split].
  - unfold has_var_keyword in Hkw. apply existsb_exists in Hkw as (p & Hp & Hk).
    exists p. apply list_elem_of_In in Hp. split; [done|].
    split; [by destruct (p_kind p)|].
    pose proof (bind_parameters_ok (sig self) task_input ∅) as Hok.
    rewrite E in Hok. cbn in Hok. symmetry in Hok.
    rewrite forallb_forall in Hok.
    specialize (Hok p (proj1 (list_elem_of_In _ _) Hp)).
    rewrite Forall_forall in Hwf. specialize (Hwf p Hp Hk).
    unfold resolvable in Hok. rewrite Hwf in Hok.
    by destruct (task_input !! p_name p).
  - apply bind_parameters_dom in E.
    rewrite dom_union_L, E, dom_empty_L, (left_id_L ∅ (∪)).
    by rewrite (comm_L (∪)).
  - intros k v Hk. by apply lookup_union_Some_l.
Qed.

Lemma catch_all_binding_shape_witness :
  well_formed_signature (sig Scenario.tally_activity)
  /\ has_var_keyword (sig Scenario.tally_activity) = true
  /\ _get_input_from Scenario.tally_activity
       {[ "a" := VInt 9; "extra" := VInt 2 ]}
     = Ok {[ "a" := VInt 9; "extra" := VInt 2 ]}
  /\ dom ({[ "a" := VInt 9; "extra" := VInt 2 ]} : gmap string value)
     = list_to_set (p_name <$> sig Scenario.tally_activity)
       ∪ dom ({[ "a" := VInt 9; "extra" := VInt 2 ]} : gmap string value).
Proof.
  assert (well_formed_signature (sig Scenario.tally_activity)) as Hwf.
  { split; [apply (bool_decide_unpack _); vm_compute; exact I|].
    repeat constructor. }
  assert (_get_input_from Scenario.tally_activity
            {[ "a" := VInt 9; "extra" := VInt 2 ]}
          = Ok {[ "a" := VInt 9; "extra" := VInt 2 ]}) as Hb
    by (vm_compute; reflexivity).
  split; [exact Hwf|]. split; [reflexivity|]. split; [exact Hb|].
  exact (proj1 (proj2 (catch_all_binding_shape Scenario.tally_activity
                         {[ "a" := VInt 9; "extra" := VInt 2 ]}
                         {[ "a" := VInt 9; "extra" := VInt 2 ]}
                         Hwf eq_refl Hb))).
Defined.

End BindingValues.

(** ** More on declarations *)

Section DeclaringMore.
Import ActivityRegistration.
Implicit Types (self : ActivityRegistration.t) (fn : Callable).

Lemma dict_contains_false {V} k (d : list (string * V)) :
  Dict.contains k d = false <-> k ∉ d.*1.
Proof.
  induction d as [|[k' v] d IH]; cbn.
  - split; [intros _; apply not_elem_of_nil|done].
  - rewrite not_elem_of_cons, <- IH.
    destruct (String.eqb_spec k' k) as [->|Hne]; cbn; [by split; [|intros []]|].
    split; [by split|by intros []].
Qed.

(** A new key goes last and leaves the entries before it alone. *)
Lemma dict_setitem_new {V} k (v : V) d :
  Dict.contains k d = false -> Dict.setitem k v d = d ++ [(k, v)].
Proof.
  induction d as [|[k' v'] d IH]; cbn; [done|].
  destruct (String.eqb k' k); cbn; [discriminate|].
  intros H. by rewrite IH.
Qed.

(** The decorator that a group with a proper name hands out. *)
Lemma activity_returns self name_arg heartbeat :
  Str.contains "!" (name self) = false ->
  activity name_arg heartbeat self
  = (Ok {| pref := name self +:+ "!" +:+ version self +:+ "!";
           deco_name := name_arg; deco_heartbeat := heartbeat |}, self).
Proof. intros Hn. unfold activity, bind, get, ret. by rewrite Hn. Qed.

(** The decorator applied under a new short name. *)
Lemma wrapper_new d fn self :
  Dict.contains (suff_of (deco_name d) fn) (activities self) = false ->
  wrapper d fn self
  = let suff := suff_of (deco_name d) fn in
    let act :=
      CallableActivity.from_callable fn (pref d +:+ suff) (deco_heartbeat d)
        (session self) in
    (Ok act, set_activities (activities self ++ [(suff, WithCallable act)]) self).
Proof.
  intros Hnew. rewrite (wrapper_stores d fn self Hnew).
  cbn zeta. by rewrite dict_setitem_new.
Qed.

(** X4.  In a group whose name has no delimiter, declaring a callable
    under a short name that the mapping does not have returns a
    [CallableActivity] and puts it last in the mapping under the short
    name; the entries that were there stay as they were.  Its name is
    [group!version!shortName], its heartbeat the given one, its session
    that of the group, its function the callable and its signature that of
    the callable, except for each of these attributes that the callable
    carries itself in its attribute dictionary: there the value of the
    callable wins. *)
Theorem declaration_adds_activity self name_arg heartbeat fn :
  Str.contains "!" (name self) = false ->
  Dict.contains (suff_of name_arg fn) (activities self) = false ->
  exists act,
    (let* d := activity name_arg heartbeat in wrapper d fn) self
    = (Ok act,
       set_activities
         (activities self ++ [(suff_of name_arg fn, WithCallable act)]) self)
    /\ Activity.name (CallableActivity.base act)
       = default (name self +:+ "!" +:+ version self +:+ "!"
                    +:+ suff_of name_arg fn)
           (attr_name (__dict__ fn))
    /\ Activity.heartbeat (CallableActivity.base act)
       = default heartbeat (attr_heartbeat (__dict__ fn))
    /\ Activity.session (CallableActivity.base act)
       = default (session self) (attr_session (__dict__ fn))
    /\ CallableActivity.fn act = default fn (attr_fn (__dict__ fn))
    /\ CallableActivity.sig act
       = default (parameters fn) (attr_sig (__dict__ fn)).
Proof.
  intros Hn Hnew. unfold bind. rewrite (activity_returns _ _ _ Hn).
  rewrite wrapper_new by exact Hnew.
  cbn [deco_name pref deco_heartbeat]. cbn zeta.
  eexists. split; [reflexivity|]. cbn. by rewrite !append_assoc.
Qed.

Lemma declaration_adds_activity_witness :
  Str.contains "!" (name Fixtures.billing_with_charge) = false
  /\ Dict.contains (suff_of (Some "again") Scenario.declared_charge)
       (activities Fixtures.billing_with_charge) = false
  /\ exists act,
       (let* d := activity (Some "again") 60 in
        wrapper d Scenario.declared_charge) Fixtures.billing_with_charge
       = (Ok act,
          set_activities
            (activities Fixtures.billing_with_charge
               ++ [("again", WithCallable act)])
            Fixtures.billing_with_charge)
       /\ Activity.name (CallableActivity.base act) = "billing!2.1!charge"
       /\ Activity.heartbeat (CallableActivity.base act) = 20%Z.
Proof.
  split; [reflexivity|]. split; [reflexivity|].
  destruct (declaration_adds_activity Fixtures.billing_with_charge
              (Some "again") 60 Scenario.declared_charge eq_refl eq_refl)
    as (act & Hrun & Hname & Hhb & _).
  exists act. by split.
Defined.

(** An entry of a group in which only callables without attributes of
    their own were declared. *)
Lemma plainly_invariant self :
  declared_plainly self ->
  NoDup (activities self).*1 /\ Forall (declared_in self) (activities self).
Proof.
  induction 1
    as [n v s|self name_arg hb fn d act self' _ [IHnd IHall] Hplain Ha Hw].
  - split; [apply NoDup_nil_2|apply Forall_nil_2].
  - apply activity_ok in Ha as (Hn & _ & ->).
    apply wrapper_ok in Hw as (Hnew & -> & ->).
    cbn [deco_name pref deco_heartbeat activities set_activities] in *.
    rewrite dict_setitem_new by done. split.
    + rewrite fmap_app. apply NoDup_app. split; [done|]. split.
      * intros k Hk Hk'. apply list_elem_of_singleton in Hk' as ->.
        by apply dict_contains_false in Hnew.
      * apply NoDup_singleton.
    + apply Forall_app. split.
      * eapply Forall_impl; [exact IHall|].
        intros km (c & ? & ? & ? & ?). by exists c.
      * apply Forall_singleton. eexists. split; [reflexivity|].
        unfold CallableActivity.from_callable, CallableActivity.update_wrapper.
        rewrite Hplain. cbn. by rewrite !append_assoc.
Qed.

(** X5.  In every group in which only callables without attributes of
    their own (plain functions) were declared, the keys of the mapping are
    distinct, and each entry is a [CallableActivity] of the group's session
    whose name is [group!version!key]. *)
Theorem declared_activities_invariant self :
  declared_plainly self ->
  NoDup (activities self).*1
  /\ forall key m,
       (key, m) ∈ activities self ->
       exists c,
         m = WithCallable c
         /\ Activity.name (CallableActivity.base c)
            = name self +:+ "!" +:+ version self +:+ "!" +:+ key
         /\ Activity.session (CallableActivity.base c) = session self
         /\ CallableActivity.sig c = parameters (CallableActivity.fn c).
Proof.
  intros Hr. destruct (plainly_invariant self Hr) as [Hnd Hall].
  split; [exact Hnd|]. intros key m Hin.
  rewrite Forall_forall in Hall. exact (Hall (key, m) Hin).
Qed.

Lemma billing_with_two_plainly : declared_plainly Scenario.billing_with_two.
Proof.
  apply (plainly_declare Fixtures.billing_with_charge None 20 Fixtures.collect
           Fixtures.billing_decorator Fixtures.collect_activity);
    [|reflexivity|reflexivity|reflexivity].
  apply (plainly_declare Fixtures.billing None 20 Fixtures.charge
           Fixtures.billing_decorator Fixtures.charge_activity);
    [apply plainly_init|reflexivity|reflexivity|reflexivity].
Defined.

Lemma declared_activities_invariant_witness :
  declared_plainly Scenario.billing_with_two
  /\ NoDup ["charge"; "collect"]
  /\ exists c,
       WithCallable Fixtures.collect_activity = WithCallable c
       /\ Activity.name (CallableActivity.base c)
          = "billing" +:+ "!" +:+ "2.1" +:+ "!" +:+ "collect".
Proof.
  split; [exact billing_with_two_plainly|].
  destruct (declared_activities_invariant _ billing_with_two_plainly)
    as [Hnd Hall].
  split; [exact Hnd|].
  destruct (Hall "collect" (WithCallable Fixtures.collect_activity))
    as (c & Hc & Hname & _); [apply list_elem_of_further, list_elem_of_here|].
  by exists c.
Defined.

(** X6.  The name of an external activity is parsed by the listing code
    into the version of the group and the name it was declared under, when
    none of group name, version and name contains the delimiter; so the
    listing and the deregistration of the group see it as one of the
    group's activities, although [register] never creates it. *)
Theorem external_name_round_trips self name_arg heartbeat a :
  new_external_activity name_arg heartbeat self = (Ok a, self) ->
  Str.contains "!" (version self) = false ->
  Str.contains "!" name_arg = false ->
  _get_name_and_version self (Activity.name a)
  = Ok (Some (version self, name_arg)).
Proof.
  unfold new_external_activity, bind, get, ret, raise.
  destruct (Str.contains "!" (name self)) eqn:Hn; [discriminate|].
  intros [= <-] Hv Hs. cbn. rewrite !append_assoc.
  by apply get_name_and_version_full_name.
Qed.

Lemma external_name_round_trips_witness :
  new_external_activity "refund" 20 Fixtures.billing_with_charge
  = (Ok (Activity.__init__ "billing!2.1!refund" 20 Fixtures.session0),
     Fixtures.billing_with_charge)
  /\ Str.contains "!" (version Fixtures.billing_with_charge) = false
  /\ Str.contains "!" "refund" = false
  /\ _get_name_and_version Fixtures.billing_with_charge "billing!2.1!refund"
     = Ok (Some ("2.1", "refund")).
Proof.
  do 3 (split; [reflexivity|]).
  exact (external_name_round_trips Fixtures.billing_with_charge "refund" 20
           (Activity.__init__ "billing!2.1!refund" 20 Fixtures.session0)
           eq_refl eq_refl eq_refl).
Defined.

End DeclaringMore.

(** ** More on listing and deregistration *)

Section SplittingBack.
Implicit Types (s t : string) (c sep : ascii).

Lemma count_contains sep s :
  Str.count sep s = 0 <-> Str.contains sep s = false.
Proof.
  induction s as [|c s IH]; cbn; [done|].
  destruct (Ascii.eqb c sep); [by split|exact IH].
Qed.

(** When the splits are not used up, no piece contains the separator. *)
Lemma split_pieces_clean sep n s :
  Str.count sep s <= n ->
  Forall (fun piece => Str.contains sep piece = false) (Str.split sep n s).
Proof.
  revert n. induction s as [|c s IH]; intros n Hn.
  - cbn. by apply Forall_singleton.
  - destruct n as [|n].
    + cbn [Str.split]. apply Forall_singleton, count_contains. lia.
    + cbn in *. destruct (Ascii.eqb c sep) eqn:Hc.
      * apply Forall_cons. split; [done|]. apply IH. lia.
      * specialize (IH (S n) Hn).
        destruct (Str.split sep (S n) s) as [|piece pieces];
          [by apply Forall_singleton; cbn; rewrite Hc|].
        apply Forall_cons in IH as [Hp Hps].
        apply Forall_cons. split; [|done]. cbn. by rewrite Hc.
  Qed.

(** Three pieces put back together with the separator give the string. *)
Lemma split_three sep s g v n :
  Str.split sep 3 s = [g; v; n] ->
  s = g +:+ String sep (v +:+ String sep n).
Proof.
  assert (forall m s' p ps, Str.split sep m s' = p :: ps ->
            (ps = [] /\ s' = p)
            \/ (exists m' t, m = S m' /\ s' = p +:+ String sep t
                             /\ Str.split sep m' t = ps)) as Hstep.
  { intros m s'. revert m. induction s' as [|c s' IH]; intros m p ps H.
    - cbn in H. injection H as <- <-. by left.
    - destruct m as [|m]; [cbn in H; injection H as <- <-; by left|].
      cbn in H. destruct (Ascii.eqb_spec c sep) as [->|Hne].
      + injection H as <- <-. right. by exists m, s'.
      + destruct (Str.split sep (S m) s') as [|p' ps'] eqn:E.
        { pose proof (split_length sep (S m) s') as Hl. by rewrite E in Hl. }
        injection H as <- <-.
        destruct (IH _ _ _ E) as [[-> ->]|(m' & t & Hm & -> & Ht)];
          [by left|].
        right. exists m', t. by rewrite append_cons. }
  intros H.
  destruct (Hstep _ _ _ _ H) as [[? _]|(m1 & t1 & [= <-] & -> & H1)];
    [discriminate|].
  destruct (Hstep _ _ _ _ H1) as [[? _]|(m2 & t2 & [= <-] & -> & H2)];
    [discriminate|].
  destruct (Hstep _ _ _ _ H2) as [[_ ->]|(m3 & t3 & _ & _ & H3)]; [done|].
  pose proof (split_length sep m3 t3) as Hlen. by rewrite H3 in Hlen.
Qed.

End SplittingBack.

Section ListingMore.
Import ActivityRegistration.
Implicit Types (self : ActivityRegistration.t) (w : world).
Implicit Types (acts items : list activity_item).
Implicit Types (resp : list ActivityListItem).

Lemma get_name_and_version_some self s v n :
  _get_name_and_version self s = Ok (Some (v, n)) ->
  s = name self +:+ "!" +:+ v +:+ "!" +:+ n
  /\ Str.contains "!" (name self) = false
  /\ Str.contains "!" v = false
  /\ Str.contains "!" n = false.
Proof.
  unfold _get_name_and_version. intros H.
  pose proof (split_length "!" 3 s) as Hlen.
  destruct (_ <? _)%nat; [discriminate|].
  destruct (Str.split "!" 3 s) as [|g [|v' [|n' [|x l]]]] eqn:E;
    try discriminate.
  destruct (String.eqb_spec g (name self)) as [->|Hne]; [|discriminate].
  cbn in H. injection H as -> ->.
  assert (Str.count "!" s <= 3) as Hc by (simpl length in Hlen; lia).
  pose proof (split_pieces_clean "!" 3 s Hc) as Hclean. rewrite E in Hclean.
  apply Forall_cons in Hclean as [Hg Hclean].
  apply Forall_cons in Hclean as [Hv Hclean].
  apply Forall_cons in Hclean as [Hn _].
  split; [exact (split_three _ _ _ _ _ E)|done].
Qed.

Lemma get_name_and_version_composite self v n :
  Str.contains "!" (name self) = false ->
  Str.contains "!" v = false ->
  Str.contains "!" n = false ->
  _get_name_and_version self (name self +:+ "!" +:+ v +:+ "!" +:+ n)
  = Ok (Some (v, n)).
Proof.
  intros Hg Hv Hn. unfold _get_name_and_version.
  change (name self +:+ "!" +:+ v +:+ "!" +:+ n)
    with (name self +:+ String "!" (v +:+ String "!" n)).
  rewrite (split_app_sep "!" 2 (name self)) by done.
  rewrite (split_app_sep "!" 1 v) by done.
  rewrite (split_no_sep "!" 1 n) by done.
  cbn. by rewrite String.eqb_refl.
Qed.

(** X7.  [_get_name_and_version] returns a version and a name for exactly
    the strings [group!version!name] in which the name of the group, the
    version and the name are free of the delimiter. *)
Theorem get_name_and_version_some_iff self s v n :
  _get_name_and_version self s = Ok (Some (v, n))
  <-> s = name self +:+ "!" +:+ v +:+ "!" +:+ n
      /\ Str.contains "!" (name self) = false
      /\ Str.contains "!" v = false
      /\ Str.contains "!" n = false.
Proof.
  split; [apply get_name_and_version_some|].
  intros (-> & Hg & Hv & Hn). by apply get_name_and_version_composite.
Qed.

(** What the loop of the listing returns: the tuples it had, and those of
    the items whose name gives a version and a name. *)
Lemma list_loop_ok self resp acts acts' :
  list_loop self resp acts = Ok acts' ->
  forall v n arn date,
    (v, n, arn, date) ∈ acts'
    <-> (v, n, arn, date) ∈ acts
        \/ exists act, act ∈ resp
             /\ _get_name_and_version self (item_name act) = Ok (Some (v, n))
             /\ item_arn act = arn /\ item_creationDate act = date.
Proof.
  revert acts. induction resp as [|a resp IH]; intros acts H v n arn date.
  - injection H as <-. split; [by left|].
    intros [?|(act & Hin & _)]; [done|by apply elem_of_nil in Hin].
  - cbn in H.
    destruct (_get_name_and_version self (item_name a)) as [[[v' n']|]|e] eqn:E;
      [| |discriminate]; rewrite (IH _ H); clear IH H.
    + rewrite elem_of_app, list_elem_of_singleton. split.
      * intros [[?|[= -> -> -> ->]]|(act & Hin & ?)]; [by left| |].
        -- right. exists a. split; [apply list_elem_of_here|done].
        -- right. exists act. split; [by apply list_elem_of_further|done].
      * intros [?|(act & Hin & Hgnv & <- & <-)]; [by left; left|].
        apply elem_of_cons in Hin as [->|Hin].
        -- rewrite E in Hgnv. injection Hgnv as -> ->. left. by right.
        -- right. by exists act.
    + split.
      * intros [?|(act & Hin & ?)]; [by left|].
        right. exists act. split; [by apply list_elem_of_further|done].
      * intros [?|(act & Hin & Hgnv & ?)]; [by left|].
        apply elem_of_cons in Hin as [->|Hin]; [by rewrite E in Hgnv|].
        right. by exists act.
Qed.

(** X8.  When [_list_activities] returns, it has made one remote call, the
    listing, and written no log line, and its tuples are exactly those of
    the remote activities named [group!version!name] with delimiter-free
    parts: no activity of another group is among them, and none of the
    group is missing. *)
Theorem list_activities_own_group self w acts w' :
  _list_activities self w = (Ok acts, w') ->
  calls w' = calls w ++ [list_activities]
  /\ logs w' = logs w
  /\ exists resp,
       on_list_activities (sfn (session self)) (calls w) = Ok resp
       /\ forall v n arn date,
            (v, n, arn, date) ∈ acts
            <-> exists act, act ∈ resp
                  /\ item_name act = name self +:+ "!" +:+ v +:+ "!" +:+ n
                  /\ Str.contains "!" (name self) = false
                  /\ Str.contains "!" v = false
                  /\ Str.contains "!" n = false
                  /\ item_arn act = arn /\ item_creationDate act = date.
Proof.
  cbv [_list_activities collect_paginated_list_activities bind get
         record_call modify lift_result].
  destruct (on_list_activities _ _) as [resp|e]; [|discriminate].
  destruct (list_loop self resp []) as [acts0|e] eqn:E; [|discriminate].
  intros [= <- <-]. do 2 (split; [reflexivity|]).
  exists resp. split; [reflexivity|]. intros v n arn date.
  rewrite (list_loop_ok _ _ _ _ E). split.
  - intros [Hnil|(act & Hin & Hgnv & Ha & Hd)]; [by apply elem_of_nil in Hnil|].
    apply get_name_and_version_some in Hgnv as (? & ? & ? & ?).
    by exists act.
  - intros (act & Hin & Hname & Hg & Hv & Hn & Ha & Hd). right.
    exists act. split; [done|]. split; [|done].
    rewrite Hname. by apply get_name_and_version_composite.
Qed.

End ListingMore.

Section Deregistering.
Import ActivityRegistration.
Implicit Types (self : ActivityRegistration.t) (w : world).
Implicit Types (acts items : list activity_item).

Lemma list_activities_own_group_witness :
  _list_activities Scenario.billing_live world0
  = (Ok [("1.0", "charge", "arn:old", "2018-07-01");
         ("2.1", "charge", "arn:live", "2018-07-02")],
     {| calls := [list_activities]; logs := [] |})
  /\ calls {| calls := [list_activities]; logs := [] |}
     = calls world0 ++ [list_activities].
Proof.
  split; [reflexivity|].
  exact (proj1 (list_activities_own_group Scenario.billing_live world0
                  _ _ eq_refl)).
Defined.

(** The delete calls are issued for the items in order, and the first one
    that raises ends the loop. *)
Lemma delete_loop_calls self items w :
  let '(r, w') := delete_loop self items w in
  exists k,
    calls w' = calls w ++ deletion_calls (take k items)
    /\ (is_ok r = true -> k = length items)
    /\ logs w' = logs w.
Proof.
  revert w. induction items as [|act items IH]; intros w.
  - exists 0. cbn. by rewrite app_nil_r.
  - cbn [delete_loop].
    cbv [bind sfn_delete_activity get record_call modify lift_result].
    destruct (on_delete_activity _ _ _) as [[]|e].
    + match goal with |- context [delete_loop self items ?w1] =>
        specialize (IH w1); destruct (delete_loop self items w1) as [r w']
      end.
      destruct IH as (k & Hk & Hok & Hlog). exists (S k).
      cbn in *. rewrite Hk, <- app_assoc. split; [done|].
      split; [|done]. intros Hr. by rewrite (Hok Hr).
    + exists 1. by cbn.
Qed.

Lemma deregister_after_listing self version_arg w acts w1 :
  _list_activities self w = (Ok acts, w1) ->
  deregister self version_arg w
  = _deregister_activities self (_filter_versions self acts version_arg) w1.
Proof. intros H. unfold deregister, bind. by rewrite H. Qed.

Lemma list_activities_calls self w r w1 :
  _list_activities self w = (r, w1) ->
  calls w1 = calls w ++ [list_activities] /\ logs w1 = logs w.
Proof.
  cbv [_list_activities collect_paginated_list_activities bind get
         record_call modify lift_result].
  destruct (on_list_activities _ _) as [resp|e]; by intros [= _ <-].
Qed.

(** After a listing that returned: the log line with the number of items
    to delete, then the delete calls. *)
Lemma deregister_outcome self version_arg w acts w1 :
  _list_activities self w = (Ok acts, w1) ->
  let '(r, w') := deregister self version_arg w in
  exists k,
    calls w'
    = calls w ++ [list_activities]
        ++ deletion_calls (take k (_filter_versions self acts version_arg))
    /\ (is_ok r = true
        -> k = length (_filter_versions self acts version_arg))
    /\ logs w'
       = logs w ++ ["Deregistering "
                      +:+ Str.of_nat
                            (length (_filter_versions self acts version_arg))
                      +:+ " activities"].
Proof.
  intros Hlist. rewrite (deregister_after_listing _ _ _ _ _ Hlist).
  apply list_activities_calls in Hlist as [Hc Hl].
  unfold _deregister_activities, bind at 1, _logger_info, modify.
  match goal with |- context [delete_loop self ?items ?w2] =>
    pose proof (delete_loop_calls self items w2) as H;
    destruct (delete_loop self items w2) as [r w']
  end.
  destruct H as (k & Hk & Hok & Hlog). exists k.
  cbn in Hk, Hlog. by rewrite Hk, Hlog, Hc, Hl, <- app_assoc.
Qed.

(** The delete loop in terms of the answers of the service: every call
    but the last was answered, and the last one decides the result. *)
Lemma delete_loop_answers self items w :
  let '(r, w') := delete_loop self items w in
  exists k,
    calls w' = calls w ++ deletion_calls (take k items)
    /\ logs w' = logs w
    /\ (is_ok r = true -> k = length items)
    /\ (is_ok r = false -> 0 < k)
    /\ forall i,
         i < k ->
         delete_answer self (calls w) items i
         = Some (if (S i =? k)%nat then r else Ok tt).
Proof.
  revert w. induction items as [|act items IH]; intros w.
  - exists 0. cbn. rewrite app_nil_r. repeat split; try done. lia.
  - cbn [delete_loop].
    cbv [bind sfn_delete_activity get record_call modify lift_result].
    destruct (on_delete_activity _ _ _) as [[]|e] eqn:Hans.
    + match goal with |- context [delete_loop self items ?w1] =>
        specialize (IH w1); destruct (delete_loop self items w1) as [r w']
      end.
      destruct IH as (k & Hk & Hlog & Hok & Hko & Hanswers). exists (S k).
      cbn [calls logs] in *. rewrite Hk, <- app_assoc.
      split; [done|]. split; [done|].
      split; [intros Hr; cbn; by rewrite (Hok Hr)|].
      split; [lia|]. intros [|i] Hi.
      * unfold delete_answer. cbn. rewrite app_nil_r, Hans.
        destruct k as [|k]; [|done].
        destruct r as [[]|e]; [done|]. specialize (Hko eq_refl). lia.
      * unfold delete_answer in *. cbn [lookup list_lookup take].
        specialize (Hanswers i ltac:(lia)).
        change (deletion_calls (act :: take i items))
          with (delete_activity (item_arn_of act)
                  :: deletion_calls (take i items)).
        rewrite (cons_middle _ (calls w)), app_assoc.
        exact Hanswers.
    + exists 1. cbn [calls logs]. repeat split; try done; [lia|].
      intros i Hi. assert (i = 0) as -> by lia.
      unfold delete_answer. cbn. by rewrite app_nil_r, Hans.
Qed.

(** X9.  When the listing returns, [deregister] logs the number of items
    that pass the version filter, once, and then issues delete calls for the
    identifiers of these items in the order of the listing, and nothing
    else.  Every delete call but the last was answered by the service.  The
    last one was made for the last item and answered, and [deregister]
    returns; or it raised, and [deregister] raises the same exception
    without a further call: the first delete call that raises is the last
    call made. *)
Theorem deregister_lists_filters_deletes self version_arg w acts w1 :
  _list_activities self w = (Ok acts, w1) ->
  let targets := _filter_versions self acts version_arg in
  let '(r, w') := deregister self version_arg w in
  exists k,
    calls w'
    = calls w ++ [list_activities] ++ deletion_calls (take k targets)
    /\ (is_ok r = true -> k = length targets)
    /\ logs w' = logs w ++ ["Deregistering " +:+ Str.of_nat (length targets)
                              +:+ " activities"]
    /\ (is_ok r = false -> 0 < k)
    /\ forall i,
         i < k ->
         delete_answer self (calls w ++ [list_activities]) targets i
         = Some (if (S i =? k)%nat then r else Ok tt).
Proof.
  intros Hlist targets.
  rewrite (deregister_after_listing _ _ _ _ _ Hlist). fold targets.
  apply list_activities_calls in Hlist as [Hc Hl].
  unfold _deregister_activities, bind at 1, _logger_info, modify.
  match goal with |- context [delete_loop self targets ?w2] =>
    pose proof (delete_loop_answers self targets w2) as H;
    destruct (delete_loop self targets w2) as [r w']
  end.
  destruct H as (k & Hk & Hlog & Hok & Hko & Hanswers). exists k.
  cbn [calls logs] in Hk, Hlog, Hanswers.
  rewrite Hk, Hlog, Hc, Hl, <- app_assoc. rewrite Hc in Hanswers.
  by repeat split.
Qed.

Lemma deregister_lists_filters_deletes_witness :
  _list_activities Scenario.billing_refused world0
  = (Ok [("1.0", "charge", "arn:1.0", "2018-07-01");
         ("1.5", "charge", "arn:1.5", "2018-07-02");
         ("1.7", "charge", "arn:1.7", "2018-07-03");
         ("2.1", "charge", "arn:2.1", "2018-07-04")],
     {| calls := [list_activities]; logs := [] |})
  /\ deregister Scenario.billing_refused None world0
     = (Raise (ClientError "AccessDeniedException"),
        {| calls := [list_activities; delete_activity "arn:1.0";
                     delete_activity "arn:1.5"];
           logs := ["Deregistering 3 activities"] |})
  /\ exists k,
       [list_activities; delete_activity "arn:1.0"; delete_activity "arn:1.5"]
       = [] ++ [list_activities]
         ++ deletion_calls
              (take k [("1.0", "charge", "arn:1.0", "2018-07-01");
                       ("1.5", "charge", "arn:1.5", "2018-07-02");
                       ("1.7", "charge", "arn:1.7", "2018-07-03")])
       /\ 0 < k.
Proof.
  split; [reflexivity|]. split; [reflexivity|].
  destruct (deregister_lists_filters_deletes Scenario.billing_refused None
              world0 _ _ eq_refl) as (k & Hk & _ & _ & Hko & _).
  exists k. split; [exact Hk|exact (Hko eq_refl)].
Defined.

Lemma deregister_listing_raised self version_arg w e w1 :
  _list_activities self w = (Raise e, w1) ->
  deregister self version_arg w = (Raise e, w1).
Proof. intros H. unfold deregister, bind. by rewrite H. Qed.

Lemma list_activities_unfold self w resp :
  on_list_activities (sfn (session self)) (calls w) = Ok resp ->
  _list_activities self w
  = (list_loop self resp [],
     {| calls := calls w ++ [list_activities]; logs := logs w |}).
Proof.
  intros H.
  cbv [_list_activities collect_paginated_list_activities bind get
         record_call modify lift_result].
  rewrite H. by destruct (list_loop self resp []).
Qed.

(** X10.  Called without a version, [deregister] never deletes an activity
    of the group's own version, nor one of another group: each delete call
    it makes is for the identifier of a listed remote activity named
    [group!version!name] whose version differs from the version of the
    group. *)
Theorem deregister_default_spares_own_version self w resp arn :
  on_list_activities (sfn (session self)) (calls w) = Ok resp ->
  delete_activity arn ∈ calls (deregister self None w).2 ->
  delete_activity arn ∈ calls w
  \/ exists act v n,
       act ∈ resp
       /\ item_name act = name self +:+ "!" +:+ v +:+ "!" +:+ n
       /\ item_arn act = arn
       /\ v <> version self.
Proof.
  intros Hresp Hin. pose proof (list_activities_unfold _ _ _ Hresp) as Hlist.
  destruct (list_loop self resp []) as [acts|e] eqn:Hloop.
  - pose proof (deregister_outcome self None w acts _ Hlist) as H.
    destruct (deregister self None w) as [r w'].
    destruct H as (k & Hk & _). cbn [snd] in Hin. rewrite Hk in Hin.
    apply elem_of_app in Hin as [Hin|Hin]; [by left|].
    apply elem_of_cons in Hin as [Hin|Hin]; [discriminate|]. right.
    unfold deletion_calls in Hin.
    apply list_elem_of_In, in_map_iff in Hin as ([[[v n] a] d] & [= <-] & Hin).
    apply list_elem_of_In, elem_of_take in Hin as (i & Hi & _).
    apply list_elem_of_lookup_2 in Hi.
    unfold _filter_versions in Hi. rewrite filter_loop_omitted in Hi.
    apply list_elem_of_filter in Hi as [Hv Hi].
    apply (list_loop_ok _ _ _ _ Hloop) in Hi
      as [Hnil|(act & Hact & Hgnv & Ha & _)]; [by apply elem_of_nil in Hnil|].
    apply get_name_and_version_some in Hgnv as (Hname & _).
    by exists act, v, n.
  - rewrite (deregister_listing_raised _ _ _ _ _ Hlist) in Hin.
    cbn in Hin. apply elem_of_app in Hin as [Hin|Hin]; [by left|].
    by apply list_elem_of_singleton in Hin.
Qed.

Lemma deregister_default_spares_own_version_witness :
  on_list_activities (sfn (session Scenario.billing_live)) (calls world0)
  = Ok Scenario.remote_three
  /\ delete_activity "arn:old"
     ∈ calls (deregister Scenario.billing_live None world0).2
  /\ exists act v n,
       act ∈ Scenario.remote_three
       /\ item_name act = "billing" +:+ "!" +:+ v +:+ "!" +:+ n
       /\ item_arn act = "arn:old"
       /\ v <> "2.1".
Proof.
  assert (delete_activity "arn:old"
          ∈ calls (deregister Scenario.billing_live None world0).2) as Hin
    by (apply list_elem_of_further, list_elem_of_here).
  split; [reflexivity|]. split; [exact Hin|].
  destruct (deregister_default_spares_own_version Scenario.billing_live
              world0 Scenario.remote_three "arn:old" eq_refl Hin)
    as [Hold|H]; [|exact H].
  by apply elem_of_nil in Hold.
Defined.

(** X11.  One remote activity whose name has three delimiters or more, of
    whatever group, keeps [deregister] from deleting anything: the listing
    raises [ValueError], and no delete call and no log line follow. *)
Theorem deregister_blocked_by_long_name self version_arg w resp act :
  on_list_activities (sfn (session self)) (calls w) = Ok resp ->
  act ∈ resp ->
  3 <= Str.count "!" (item_name act) ->
  deregister self version_arg w
  = (Raise too_many_values,
     {| calls := calls w ++ [list_activities]; logs := logs w |}).
Proof.
  intros Hresp Hact Hlong.
  apply deregister_listing_raised.
  rewrite (list_activities_unfold _ _ _ Hresp).
  by rewrite (list_loop_raises self resp [] act Hact Hlong).
Qed.

Lemma deregister_blocked_by_long_name_witness :
  on_list_activities (sfn (session Fixtures.billing_remote)) (calls world0)
  = Ok Fixtures.remote_listing
  /\ 3 <= Str.count "!" "billing!2.1!charge!v2"
  /\ deregister Fixtures.billing_remote None world0
     = (Raise too_many_values,
        {| calls := [list_activities]; logs := [] |}).
Proof.
  split; [reflexivity|]. split; [cbn; lia|].
  refine (deregister_blocked_by_long_name Fixtures.billing_remote None world0
            Fixtures.remote_listing
            {| item_name := "billing!2.1!charge!v2";
               item_arn := "arn:aws:states:eu-west-1:123456789012:activity:billing!2.1!charge!v2";
               item_creationDate := "2018-07-02" |} eq_refl _ _).
  - apply list_elem_of_further, list_elem_of_here.
  - cbn. lia.
Defined.

End Deregistering.

(** ** More on registration *)

Section RegisteringMore.
Import ActivityRegistration.
Implicit Types (self : ActivityRegistration.t) (w : world).
Implicit Types (acts : list (string * member)).
Context (assert_valid_name : string -> result unit).

(** X12.  When [register] of an activity returns, it has made the creation
    call and written its log line, nothing else; the service answered
    with the identifier now in the slot of the object, which is what [arn]
    returns from then on. *)
Theorem register_then_arn cls (a a' : Activity.t) w w' :
  Activity.register assert_valid_name cls (a, w) = (Ok tt, (a', w')) ->
  exists resp,
    on_create_activity (sfn (Activity.session a)) (calls w) (Activity.name a)
    = Ok resp
    /\ Activity.arn a' = (Ok (activityArn resp), a')
    /\ calls w' = calls w ++ [create_activity (Activity.name a)]
    /\ logs w' = logs w ++ ["Activity '" +:+ Activity.__str__ cls a
                              +:+ "' registered at " +:+ creationDate resp].
Proof.
  cbv [Activity.register bind on_fst on_snd get lift_result
         sfn_create_activity record_call modify raise _logger_info
         fst snd calls logs].
  destruct (assert_valid_name (Activity.name a)) as [[]|e]; [|discriminate].
  destruct (on_create_activity _ _ _) as [resp|e]; [|discriminate].
  cbv [Activity.arn cached_property].
  destruct (Activity.arn_slot a) as [v|] eqn:Hs.
  - destruct (String.eqb (activityArn resp) v) eqn:He; [|discriminate].
    apply String.eqb_eq in He. intros [= <- <-]. exists resp.
    by rewrite Hs, He.
  - destruct (String.eqb (activityArn resp) (Activity.generated_arn a)) eqn:He;
      [|discriminate].
    apply String.eqb_eq in He. intros [= <- <-]. exists resp.
    by rewrite He.
Qed.

(** Registering one object changes at most the slot of its identifier; it
    either makes no call, raises and changes nothing, or makes the creation
    call for the name of the object. *)
Lemma register_member_outcome m w :
  let '(r, (m', w')) := register_member assert_valid_name (m, w) in
  without_arn m' = without_arn m
  /\ ((calls w' = calls w /\ m' = m /\ is_ok r = false)
      \/ calls w'
         = calls w ++ [create_activity (Activity.name (as_activity m))]).
Proof.
  assert (forall cls (a : Activity.t),
            let '(r, (a', w')) :=
              Activity.register assert_valid_name cls (a, w) in
            clear_arn a' = clear_arn a
            /\ ((calls w' = calls w /\ a' = a /\ is_ok r = false)
                \/ calls w' = calls w ++ [create_activity (Activity.name a)]))
    as Hreg.
  { intros cls a.
    cbv [Activity.register bind on_fst on_snd get lift_result
           sfn_create_activity record_call modify raise _logger_info
           fst snd calls logs].
    destruct (assert_valid_name (Activity.name a)) as [[]|e];
      [|by split; [|left]].
    destruct (on_create_activity _ _ _) as [resp|e]; [|by split; [|right]].
    cbv [Activity.arn cached_property].
    destruct (Activity.arn_slot a) as [v|];
      destruct (String.eqb (activityArn resp) _); by split; [|right]. }
  unfold register_member, CallableActivity.register. cbn [fst snd].
  destruct m as [a|c]; cbn [as_activity without_arn].
  - specialize (Hreg "Activity" a).
    destruct (Activity.register _ _ _) as [r [a' w']].
    destruct Hreg as [Hsame Hcalls]. cbv beta iota zeta. cbn [without_arn].
    split; [by rewrite Hsame|].
    destruct Hcalls as [(? & -> & ?)|?]; [by left|by right].
  - specialize (Hreg "CallableActivity" (CallableActivity.base c)).
    destruct (Activity.register _ _ _) as [r [a' w']].
    destruct Hreg as [Hsame Hcalls]. cbv beta iota zeta.
    cbn [without_arn CallableActivity.base CallableActivity.fn
           CallableActivity.sig].
    split; [by rewrite Hsame|].
    destruct Hcalls as [(? & -> & ?)|?]; [left|by right].
    by destruct c.
Qed.

Lemma register_values_outcome acts w :
  let '(r, (acts', w')) := register_values assert_valid_name acts w in
  acts'.*1 = acts.*1
  /\ without_arn <$> acts'.*2 = without_arn <$> acts.*2
  /\ exists k,
       calls w' = calls w ++ creation_calls (take k acts)
       /\ drop k acts' = drop k acts
       /\ (is_ok r = true -> k = length acts).
Proof.
  revert w. induction acts as [|[key m] acts IH]; intros w.
  - cbn. do 2 (split; [done|]). exists 0. by rewrite app_nil_r.
  - cbn [register_values].
    pose proof (register_member_outcome m w) as Hm.
    destruct (register_member _ _) as [[[]|e] [m' w1]].
    + destruct Hm as [Hsame [(_ & _ & ?)|Hcall]]; [discriminate|].
      specialize (IH w1).
      destruct (register_values _ acts w1) as [r [rest' w']].
      destruct IH as (Hkeys & Hrest & k & Hk & Hdrop & Hok).
      cbn. rewrite Hkeys, Hrest, Hsame. do 2 (split; [done|]).
      exists (S k). cbn. rewrite Hk, Hcall, <- app_assoc.
      split; [done|]. split; [done|]. intros Hr. by rewrite (Hok Hr).
    + destruct Hm as [Hsame Hcalls]. cbn. rewrite Hsame.
      do 2 (split; [done|]).
      destruct Hcalls as [(Hc & -> & _)|Hc].
      * exists 0. cbn. by rewrite app_nil_r.
      * exists 1. by cbn.
Qed.

(** The loop over a mapping in two parts: the second part is reached only
    when the first part returns. *)
Lemma register_values_app acts1 acts2 w :
  register_values assert_valid_name (acts1 ++ acts2) w
  = let '(r1, (acts1', w1)) := register_values assert_valid_name acts1 w in
    match r1 with
    | Ok _ =>
        let '(r, (acts2', w')) :=
          register_values assert_valid_name acts2 w1 in
        (r, (acts1' ++ acts2', w'))
    | Raise e => (Raise e, (acts1' ++ acts2, w1))
    end.
Proof.
  revert w. induction acts1 as [|[key m] acts1 IH]; intros w.
  - cbn. by destruct (register_values _ acts2 w) as [r [acts2' w']].
  - cbn [app register_values].
    destruct (register_member _ _) as [[[]|e] [m' w1]]; [|done].
    rewrite IH.
    destruct (register_values _ acts1 w1) as [[[]|e] [acts1' w2]]; [|done].
    by destruct (register_values _ acts2 w2) as [r [acts2' w']].
Qed.

(** X13.  The group's [register] changes nothing in the group but the
    identifier slots of its activities: keys, order, names, heartbeats,
    sessions and functions stay.  It issues creation calls for the
    activities in the order of the mapping, and the activities after the
    last call keep even their slots.  The first failure ends it: when the
    activities before one register and the registration of that one
    raises, the group's [register] raises the same exception, the world is
    as that registration left it, with no further call, and the activities
    after it are as they were. *)
Theorem group_register_touches_only_slots self w :
  let '(r, (self', w')) := register assert_valid_name (self, w) in
  name self' = name self
  /\ version self' = version self
  /\ session self' = session self
  /\ (activities self').*1 = (activities self).*1
  /\ without_arn <$> (activities self').*2
     = without_arn <$> (activities self).*2
  /\ (exists k,
        calls w' = calls w ++ creation_calls (take k (activities self))
        /\ drop k (activities self') = drop k (activities self)
        /\ (is_ok r = true -> k = length (activities self)))
  /\ forall acts1 key m acts2,
       activities self = acts1 ++ (key, m) :: acts2 ->
       let '(r1, (self1, w1)) :=
         register assert_valid_name (set_activities acts1 self, w) in
       let '(rm, (m', w2)) := register_member assert_valid_name (m, w1) in
       is_ok r1 = true ->
       is_ok rm = false ->
       r = rm /\ w' = w2
       /\ activities self' = activities self1 ++ (key, m') :: acts2.
Proof.
  unfold register. cbn [fst snd activities set_activities].
  pose proof (register_values_outcome (activities self) w) as H.
  pose proof (fun acts1 acts2 =>
                register_values_app acts1 acts2 w) as Happ.
  destruct (register_values _ (activities self) w) as [r [acts' w']] eqn:Hrun.
  cbn [name version session activities set_activities].
  destruct H as (Hkeys & Hrest & Hk).
  do 5 (split; [done|]). split; [exact Hk|].
  intros acts1 key m acts2 Hsplit. rewrite Hsplit in Hrun.
  rewrite Happ in Hrun.
  destruct (register_values _ acts1 w) as [r1 [acts1' w1]].
  cbn [activities set_activities].
  destruct (register_member _ (m, w1)) as [rm [m' w2]] eqn:Hm.
  intros Hr1 Hrm. destruct r1 as [[]|e1]; [|discriminate].
  destruct rm as [u|e]; [discriminate|].
  cbn [register_values] in Hrun. rewrite Hm in Hrun.
  by injection Hrun as <- <- <-.
Qed.

(** One registration that meets no obstacle. *)
Lemma register_member_succeeds m w :
  registrable assert_valid_name (as_activity m) ->
  exists line,
    register_member assert_valid_name (m, w)
    = (Ok tt, (with_arn m,
               {| calls := calls w
                           ++ [create_activity
                                 (Activity.name (as_activity m))];
                  logs := logs w ++ [line] |})).
Proof.
  assert (forall cls (a : Activity.t),
            registrable assert_valid_name a ->
            exists line,
              Activity.register assert_valid_name cls (a, w)
              = (Ok tt,
                 (Activity.store_arn (Activity.generated_arn a) a,
                  {| calls := calls w ++ [create_activity (Activity.name a)];
                     logs := logs w ++ [line] |}))) as Hreg.
  { intros cls a (Hvalid & Hsvc & Hslot).
    destruct (Hsvc (calls w) (Activity.name a)) as [date Hresp].
    cbv [Activity.register bind on_fst on_snd get lift_result
           sfn_create_activity record_call modify raise _logger_info
           fst snd].
    rewrite Hvalid, Hresp. cbv [Activity.arn cached_property].
    destruct a as [nm hb ses slot]. cbn in *.
    destruct Hslot as [->| ->]; cbn;
      change (Activity.generated_arn ?a)
        with ("arn:aws:states:" +:+ region (Activity.session a) +:+ ":"
                +:+ account_id (Activity.session a) +:+ ":activity:"
                +:+ Activity.name a);
      cbn; rewrite String.eqb_refl; by eexists. }
  intros Hm. unfold register_member, CallableActivity.register.
  cbn [fst snd]. destruct m as [a|c]; cbn [as_activity] in *.
  - destruct (Hreg "Activity" a Hm) as [line ->]. by exists line.
  - destruct (Hreg "CallableActivity" _ Hm) as [line ->]. by exists line.
Qed.

Lemma with_arn_registrable m :
  registrable assert_valid_name (as_activity m) ->
  registrable assert_valid_name (as_activity (with_arn m))
  /\ with_arn (with_arn m) = with_arn m
  /\ Activity.name (as_activity (with_arn m)) = Activity.name (as_activity m).
Proof.
  intros (Hvalid & Hsvc & _).
  destruct m as [a|c]; cbn;
    (split; [split; [done|split; [done|by right]]|done]).
Qed.

Lemma register_values_succeeds acts w :
  Forall (fun km => registrable assert_valid_name (as_activity km.2)) acts ->
  exists lines,
    length lines = length acts
    /\ register_values assert_valid_name acts w
       = (Ok tt, (prod_map id with_arn <$> acts,
                  {| calls := calls w ++ creation_calls acts;
                     logs := logs w ++ lines |})).
Proof.
  intros Hall. revert w.
  induction Hall as [|[key m] acts Hm Hall IH]; intros w.
  - exists []. cbn. rewrite !app_nil_r. by destruct w.
  - cbn [register_values].
    destruct (register_member_succeeds m w Hm) as (line & ->).
    match goal with |- context [register_values _ acts ?w1] =>
      destruct (IH w1) as (lines & Hlen & ->)
    end.
    exists (line :: lines). cbn. rewrite Hlen, <- !app_assoc. by split.
Qed.

(** X14.  When every activity of the group has a valid name, a service
    that answers with the expected identifier, and no stale identifier in
    its slot, the group's [register] returns, has issued exactly the
    creation calls for all the activities in the order of the mapping and
    one log line for each, and leaves every activity with its identifier in
    its slot and the group otherwise as it was. *)
Theorem group_register_succeeds self w :
  Forall (fun km => registrable assert_valid_name (as_activity km.2))
    (activities self) ->
  let '(r, (self', w')) := register assert_valid_name (self, w) in
  r = Ok tt
  /\ self' = set_activities (prod_map id with_arn <$> activities self) self
  /\ calls w' = calls w ++ creation_calls (activities self)
  /\ length (logs w') = length (logs w) + length (activities self).
Proof.
  intros Hall. unfold register. cbn [fst snd].
  destruct (register_values_succeeds _ w Hall) as (lines & Hlen & ->).
  cbn. by rewrite length_app, Hlen.
Qed.

(** X15.  Under the same conditions [register] can be repeated: a second
    call returns as well, issues the same creation calls again and leaves
    the group exactly as the first call left it. *)
Theorem group_register_repeatable self w :
  Forall (fun km => registrable assert_valid_name (as_activity km.2))
    (activities self) ->
  let '(_, (self1, w1)) := register assert_valid_name (self, w) in
  let '(r2, (self2, w2)) := register assert_valid_name (self1, w1) in
  r2 = Ok tt
  /\ self2 = self1
  /\ calls w2 = calls w1 ++ creation_calls (activities self).
Proof.
  intros Hall. unfold register. cbn [fst snd].
  destruct (register_values_succeeds _ w Hall) as (lines & Hlen & ->).
  cbn [activities set_activities fst snd].
  assert (Forall (fun km => registrable assert_valid_name (as_activity km.2))
            (prod_map id with_arn <$> activities self)) as Hall'.
  { apply Forall_fmap. eapply Forall_impl; [exact Hall|].
    intros [key m] Hm. by apply with_arn_registrable. }
  match goal with |- context [register_values _ _ ?w1] =>
    destruct (register_values_succeeds _ w1 Hall') as (lines' & _ & ->)
  end.
  assert (prod_map id with_arn <$> (prod_map id with_arn <$> activities self)
          = prod_map id with_arn <$> activities self) as Hidem.
  { rewrite <- list_fmap_compose. apply Forall_fmap_ext_1.
    eapply Forall_impl; [exact Hall|].
    intros [key m] Hm. cbn. f_equal. by apply with_arn_registrable. }
  assert (creation_calls (prod_map id with_arn <$> activities self)
          = creation_calls (activities self)) as Hcalls.
  { unfold creation_calls. rewrite <- list_fmap_compose.
    apply Forall_fmap_ext_1. eapply Forall_impl; [exact Hall|].
    intros [key m] Hm. cbn. f_equal. by apply with_arn_registrable. }
  cbn. by rewrite Hidem, Hcalls.
Qed.

End RegisteringMore.

Lemma register_then_arn_witness :
  let a := Activity.__init__ "billing!2.1!refund" 20 Fixtures.session0 in
  let arn := "arn:aws:states:eu-west-1:123456789012:activity:billing!2.1!refund" in
  Activity.register Fixtures.any_name_valid "Activity" (a, world0)
  = (Ok tt,
     (Activity.store_arn arn a,
      {| calls := [create_activity "billing!2.1!refund"];
         logs := ["Activity 'Activity 'billing!2.1!refund'' registered at 2018-07-12 10:00:00"] |}))
  /\ Activity.arn (Activity.store_arn arn a)
     = (Ok arn, Activity.store_arn arn a).
Proof.
  intros a arn.
  assert (Activity.register Fixtures.any_name_valid "Activity" (a, world0)
          = (Ok tt,
             (Activity.store_arn arn a,
              {| calls := [create_activity "billing!2.1!refund"];
                 logs := ["Activity 'Activity 'billing!2.1!refund'' registered at 2018-07-12 10:00:00"] |})))
    as Hreg by (vm_compute; reflexivity).
  split; [exact Hreg|].
  destruct (register_then_arn Fixtures.any_name_valid "Activity" a _
              world0 _ Hreg) as (resp & Hresp & Harn & _).
  vm_compute in Hresp. injection Hresp as <-. exact Harn.
Defined.

Lemma billing_registrable :
  Forall (fun km =>
            registrable Fixtures.any_name_valid
              (ActivityRegistration.as_activity km.2))
    (ActivityRegistration.activities Fixtures.billing_with_charge).
Proof.
  apply Forall_singleton. split; [reflexivity|]. split; [|by left].
  intros history name. by eexists.
Defined.

Lemma group_register_touches_only_slots_witness :
  let '(r, (self', w')) :=
    ActivityRegistration.register Scenario.charge_is_refused
      (Scenario.billing_with_two, world0) in
  (ActivityRegistration.activities self').*1 = ["charge"; "collect"]
  /\ r = Raise (ValueError "Invalid name")
  /\ w' = world0.
Proof.
  pose proof (group_register_touches_only_slots Scenario.charge_is_refused
                Scenario.billing_with_two world0) as H.
  destruct (ActivityRegistration.register _ _) as [r [self' w']].
  destruct H as (_ & _ & _ & Hkeys & _ & _ & Hfirst).
  split; [exact Hkeys|].
  specialize (Hfirst [] "charge"
                (ActivityRegistration.WithCallable Fixtures.charge_activity)
                [("collect",
                  ActivityRegistration.WithCallable Fixtures.collect_activity)]
                eq_refl).
  vm_compute in Hfirst.
  destruct (Hfirst eq_refl eq_refl) as (Hr & Hw & _). by split.
Defined.

Lemma group_register_succeeds_witness :
  Forall (fun km =>
            registrable Fixtures.any_name_valid
              (ActivityRegistration.as_activity km.2))
    (ActivityRegistration.activities Fixtures.billing_with_charge)
  /\ (let '(r, (_, w')) :=
        ActivityRegistration.register Fixtures.any_name_valid
          (Fixtures.billing_with_charge, world0) in
      r = Ok tt
      /\ calls w' = calls world0
                    ++ creation_calls
                         (ActivityRegistration.activities
                            Fixtures.billing_with_charge)).
Proof.
  split; [exact billing_registrable|].
  pose proof (group_register_succeeds Fixtures.any_name_valid
                Fixtures.billing_with_charge world0 billing_registrable) as H.
  destruct (ActivityRegistration.register _ _) as [r [self' w']].
  destruct H as (Hr & _ & Hc & _). by split.
Defined.

Lemma group_register_repeatable_witness :
  Forall (fun km =>
            registrable Fixtures.any_name_valid
              (ActivityRegistration.as_activity km.2))
    (ActivityRegistration.activities Fixtures.billing_with_charge)
  /\ (let '(_, (self1, w1)) :=
        ActivityRegistration.register Fixtures.any_name_valid
          (Fixtures.billing_with_charge, world0) in
      let '(r2, (self2, w2)) :=
        ActivityRegistration.register Fixtures.any_name_valid (self1, w1) in
      r2 = Ok tt /\ self2 = self1).
Proof.
  split; [exact billing_registrable|].
  pose proof (group_register_repeatable Fixtures.any_name_valid
                Fixtures.billing_with_charge world0 billing_registrable) as H.
  destruct (ActivityRegistration.register _ _) as [r1 [self1 w1]].
  destruct (ActivityRegistration.register _ _) as [r2 [self2 w2]].
  destruct H as (Hr & Hs & _). by split.
Defined.

(** ** Further edge cases of a group *)

Section GroupEdges.
Import ActivityRegistration.
Implicit Types (self : ActivityRegistration.t) (fn : Callable) (w : world).
Implicit Types (items : list activity_item).

Lemma dict_contains_last {V} k (v : V) d :
  Dict.contains k (d ++ [(k, v)]) = true.
Proof.
  unfold Dict.contains. rewrite existsb_app. cbn.
  by rewrite String.eqb_refl, orb_true_r.
Qed.

(** X16.  A short name that has just been declared is taken: whatever the
    function and the heartbeat, the next declaration under it raises the
    [ValueError] of the duplicate and leaves the group as the first
    declaration left it, with one activity more than before. *)
Theorem declared_name_is_taken self name_arg heartbeat fn
    name_arg2 heartbeat2 fn2 :
  Str.contains "!" (name self) = false ->
  Dict.contains (suff_of name_arg fn) (activities self) = false ->
  suff_of name_arg2 fn2 = suff_of name_arg fn ->
  let '(_, self1) :=
    (let* d := activity name_arg heartbeat in wrapper d fn) self in
  (let* d := activity name_arg2 heartbeat2 in wrapper d fn2) self1
  = (Raise (ValueError ("Activity '" +:+ suff_of name_arg fn
                          +:+ "' already registered")), self1)
  /\ length (activities self1) = S (length (activities self)).
Proof.
  intros Hn Hnew Hsame. unfold bind at 1.
  rewrite (activity_returns _ _ _ Hn), wrapper_new by exact Hnew.
  cbn [deco_name]. cbn zeta.
  split; [|cbn; rewrite length_app; cbn; lia].
  unfold bind. rewrite activity_returns by exact Hn.
  rewrite wrapper_duplicate; cbn [deco_name activities set_activities];
    rewrite Hsame; [done|apply dict_contains_last].
Qed.

Lemma declared_name_is_taken_witness :
  Str.contains "!" (name Fixtures.billing) = false
  /\ Dict.contains (suff_of None Fixtures.charge) (activities Fixtures.billing)
     = false
  /\ suff_of (Some "charge") Fixtures.collect = suff_of None Fixtures.charge
  /\ (let* d := activity (Some "charge") 30 in wrapper d Fixtures.collect)
       Fixtures.billing_with_charge
     = (Raise (ValueError "Activity 'charge' already registered"),
        Fixtures.billing_with_charge).
Proof.
  do 3 (split; [reflexivity|]).
  exact (proj1 (declared_name_is_taken Fixtures.billing None 20
                  Fixtures.charge (Some "charge") 30 Fixtures.collect
                  eq_refl eq_refl eq_refl)).
Defined.

(** X17.  In a group whose name contains the delimiter nothing can be
    declared: a declaration and the declaration of an external activity
    both raise the [ValueError] about the group name, before the short name
    is looked at, and leave the group and the world as they were. *)
Theorem ill_named_group_declares_nothing self name_arg heartbeat fn
    external_name w :
  Str.contains "!" (name self) = true ->
  on_fst (let* d := activity name_arg heartbeat in wrapper d fn) (self, w)
  = (Raise (ValueError "Activities group name cannot contain '!'"),
     (self, w))
  /\ on_fst (new_external_activity external_name heartbeat) (self, w)
     = (Raise (ValueError "Activities group name cannot contain '!'"),
        (self, w)).
Proof.
  intros Hn.
  unfold on_fst, new_external_activity, bind at 1, activity, bind, get, raise.
  cbn [fst snd]. by rewrite Hn.
Qed.

Lemma ill_named_group_declares_nothing_witness :
  let self := ActivityRegistration.__init__ "bill!ing" "2.1" Fixtures.session0 in
  Str.contains "!" (name self) = true
  /\ on_fst (let* d := activity None 20 in wrapper d Fixtures.charge)
       (self, world0)
     = (Raise (ValueError "Activities group name cannot contain '!'"),
        (self, world0)).
Proof.
  intros self. split; [reflexivity|].
  exact (proj1 (ill_named_group_declares_nothing self None 20 Fixtures.charge
                  "refund" world0 eq_refl)).
Defined.

(** X18.  The two modes of [_filter_versions] split a listing: the items
    kept without a version and the items kept for the version of the group
    are, together, the items of the listing, each one once. *)
Theorem filter_modes_split_listing self items :
  _filter_versions self items None
    ++ _filter_versions self items (Some (version self))
  ≡ₚ items.
Proof.
  unfold _filter_versions.
  rewrite filter_loop_omitted, filter_loop_given. cbn [app].
  rewrite (comm (++)).
  apply (filter_app_complement (fun act => item_version act = version self)).
Qed.

End GroupEdges.

(** ** Distinct names, distinct identifiers *)

Section Distinct.
Import ActivityRegistration.
Implicit Types (self : ActivityRegistration.t).

(** X19.  For one session the identifier determines the name: two
    activities of the same session whose [arn] is the same string have the
    same name, so activities of different names never share an
    identifier. *)
Theorem arn_determines_name name1 heartbeat1 name2 heartbeat2 session :
  (Activity.arn (Activity.__init__ name1 heartbeat1 session)).1
  = (Activity.arn (Activity.__init__ name2 heartbeat2 session)).1 ->
  name1 = name2.
Proof.
  cbv [Activity.arn cached_property Activity.__init__ Activity.arn_slot
         Activity.generated_arn Activity.name Activity.session fst].
  intros [= H]. by repeat apply String.app_inj in H.
Qed.

Lemma arn_determines_name_witness :
  (Activity.arn (Activity.__init__ "billing!2.1!charge" 20 Fixtures.session0)).1
  = (Activity.arn (Activity.__init__ "billing!2.1!charge" 60 Fixtures.session0)).1
  /\ "billing!2.1!charge" = "billing!2.1!charge".
Proof.
  split; [reflexivity|].
  exact (arn_determines_name "billing!2.1!charge" 20 "billing!2.1!charge" 60
           Fixtures.session0 eq_refl).
Defined.

Lemma creation_calls_of_keys self acts :
  Forall (declared_in self) acts ->
  creation_calls acts
  = (fun key => create_activity
                  (name self +:+ "!" +:+ version self +:+ "!" +:+ key))
      <$> acts.*1.
Proof.
  induction 1 as [|[key m] acts Hd _ IH]; [done|].
  destruct Hd as (c & Hm & Hname & _). cbn in Hm, Hname. subst m.
  change (creation_calls ((key, WithCallable c) :: acts))
    with (create_activity (Activity.name (CallableActivity.base c))
            :: creation_calls acts).
  by rewrite IH, Hname.
Qed.

(** X20.  In every group in which only callables without attributes of
    their own (plain functions) were declared, the activities have pairwise
    distinct remote names: the creation calls that [register] can issue for
    the group never name the same activity twice. *)
Theorem declared_names_are_distinct self :
  declared_plainly self -> NoDup (creation_calls (activities self)).
Proof.
  intros Hr. destruct (plainly_invariant self Hr) as [Hnd Hall].
  rewrite (creation_calls_of_keys self _ Hall).
  apply NoDup_fmap_2; [|done].
  intros k1 k2 [= H]. by repeat apply String.app_inj in H.
Qed.

Lemma declared_names_are_distinct_witness :
  declared_plainly Scenario.billing_with_two
  /\ NoDup [create_activity "billing!2.1!charge";
            create_activity "billing!2.1!collect"].
Proof.
  split; [exact billing_with_two_plainly|].
  exact (declared_names_are_distinct _ billing_with_two_plainly).
Defined.

End Distinct.
